(** * hackathon-todo: the task store, the CLI, the chat intent parser and the
    chat endpoints, embedded from the Python sources.

    Layout
    - [Text]    : the [str] methods the sources call (lower, strip, title,
                  the [in] substring test, [int] of a digit run, [str] of an int)
    - [Re]      : the fragment of Python's [re] the patterns use, as a
                  backtracking matcher with capture groups
    - [Agent]   : services/ai_agent.py (intent parser, template responses,
                  process_message)
    - [Domain]  : src/domain, src/infrastructure, src/cli (the offline CLI)
    - [Backend] : backend/models, repositories, routers, services/mcp_tools,
                  and the service as a state machine over requests
    - [Samples] : inputs taken from the repository's test suites
    - the properties, by topic: parser, templates, chat turn, history,
      command line, titles, completion times

    Text is modelled as Rocq [string]s, one [ascii] per character; the
    character classes below are Python's on the ASCII range, and a character
    above 127 is an ordinary symbol (no case, no space, no digit).
    Readings of [datetime.utcnow()] are integers handed in by the caller. *)

From Stdlib Require Import ZArith Ascii String List Bool Lia.
From Stdlib Require Import DecimalString Sorting.Sorted.
From stdpp Require Import base option list sorting gmap strings.

Local Open Scope Z_scope.

(* ===================================================================== *)
(** ** Text: the str operations used by the sources                      *)
(* ===================================================================== *)

Module Text.

Definition code (c : ascii) : N := N_of_ascii c.

Definition in_range (lo hi : N) (c : ascii) : bool :=
  (N.leb lo (code c) && N.leb (code c) hi)%bool.

Definition is_upper (c : ascii) : bool := in_range 65 90 c.
Definition is_lower (c : ascii) : bool := in_range 97 122 c.
Definition is_digit (c : ascii) : bool := in_range 48 57 c.

(** [str.isspace] on one character: TAB, LF, VT, FF, CR, the four
    separators FS, GS, RS, US and the blank. *)
Definition is_space (c : ascii) : bool :=
  (in_range 9 13 c || in_range 28 32 c)%bool.

(** [\w] of a str pattern: letters, digits and the underscore. *)
Definition is_word (c : ascii) : bool :=
  (is_upper c || is_lower c || is_digit c || N.eqb (code c) 95)%bool.

Definition to_lower (c : ascii) : ascii :=
  if is_upper c then ascii_of_N (code c + 32) else c.

Definition to_upper (c : ascii) : ascii :=
  if is_lower c then ascii_of_N (code c - 32) else c.

(** [s.lower()] *)
Fixpoint lower (s : string) : string :=
  match s with
  | EmptyString => EmptyString
  | String c s' => String (to_lower c) (lower s')
  end.

Fixpoint lstrip (s : string) : string :=
  match s with
  | EmptyString => EmptyString
  | String c s' => if is_space c then lstrip s' else s
  end.

Fixpoint rstrip (s : string) : string :=
  match s with
  | EmptyString => EmptyString
  | String c s' =>
      match rstrip s' with
      | EmptyString => if is_space c then EmptyString else String c EmptyString
      | r => String c r
      end
  end.

(** [s.strip()] *)
Definition strip (s : string) : string := rstrip (lstrip s).

(** No blank at either end: what [strip] leaves. *)
Definition first_is_space (s : string) : bool :=
  match s with
  | String c _ => is_space c
  | EmptyString => false
  end.

Fixpoint last_is_space (s : string) : bool :=
  match s with
  | EmptyString => false
  | String c EmptyString => is_space c
  | String _ s' => last_is_space s'
  end.

Definition trimmed (s : string) : bool :=
  (negb (first_is_space s) && negb (last_is_space s))%bool.

(** [s.title()]: a cased character is upper-cased when the character before
    it is not cased and lower-cased when it is; anything else is kept and
    ends the word. *)
Fixpoint title_from (prev_cased : bool) (s : string) : string :=
  match s with
  | EmptyString => EmptyString
  | String c s' =>
      if is_lower c then
        String (if prev_cased then c else to_upper c) (title_from true s')
      else if is_upper c then
        String (if prev_cased then to_lower c else c) (title_from true s')
      else String c (title_from false s')
  end.

Definition title (s : string) : string := title_from false s.

(** [sub in s] *)
Fixpoint contains (sub s : string) : bool :=
  if String.prefix sub s then true
  else match s with
       | EmptyString => false
       | String _ s' => contains sub s'
       end.

(** [any(word in s for word in words)] *)
Definition any_in (words : list string) (s : string) : bool :=
  existsb (fun w => contains w s) words.

(** [int(ds)] for a run of decimal digits, as [\d+] captures it. *)
Fixpoint int_digits (acc : Z) (s : string) : Z :=
  match s with
  | EmptyString => acc
  | String c s' => int_digits (10 * acc + Z.of_N (code c - 48)) s'
  end.

Definition int_of (s : string) : Z := int_digits 0 s.

(** [str(n)] / [f"{n}"] for an int. *)
Definition str_of_int (n : Z) : string := NilZero.string_of_int (Z.to_int n).

(** Characters of [s] before the suffix [rest] (what a match consumed). *)
Definition consumed (s rest : string) : string :=
  String.substring 0 (String.length s - String.length rest)%nat s.

End Text.

(* ===================================================================== *)
(** ** Re: the regular-expression fragment of the patterns               *)
(* ===================================================================== *)

Module Re.

(** Pattern syntax: exactly the constructs the sources' patterns use.
    Quantifiers are greedy and alternation is ordered, as in Python. *)
Inductive regex : Type :=
| Lit (s : string)             (* a literal run of characters *)
| Cls (p : ascii -> bool)      (* one character of a class: \s \d \w . *)
| Seq (r1 r2 : regex)          (* r1 r2 *)
| Alt (r1 r2 : regex)          (* r1|r2 *)
| Opt (r : regex)              (* r? *)
| Plus (r : regex)             (* r+ *)
| Grp (n : nat) (r : regex).   (* capture group number n *)

Definition space : regex := Cls Text.is_space.
Definition digit : regex := Cls Text.is_digit.
Definition word : regex := Cls Text.is_word.
(** [.] without DOTALL: any character but the line feed. *)
Definition dot : regex := Cls (fun c => negb (N.eqb (Text.code c) 10)).

Fixpoint alts (ws : list string) : regex :=
  match ws with
  | [] => Lit ""
  | [w] => Lit w
  | w :: ws' => Alt (Lit w) (alts ws')
  end.

Fixpoint seqs (rs : list regex) : regex :=
  match rs with
  | [] => Lit ""
  | [r] => r
  | r :: rs' => Seq r (seqs rs')
  end.

(** Capture groups: group number to captured text. *)
Definition groups : Type := gmap nat string.

Definition drop_prefix (p s : string) : option string :=
  if String.prefix p s
  then Some (String.substring (String.length p)
               (String.length s - String.length p) s)
  else None.

(** Backtracking matcher in continuation-passing style: [go r s g k] matches
    [r] at the head of [s] and hands the rest of the input and the groups
    to [k]; a failing continuation makes the matcher try its next
    alternative.  [r+] iterates as long as each round consumes input, so one
    more round than the input has characters is never needed. *)
Fixpoint go {R : Type} (r : regex) (s : string) (g : groups)
    (k : string -> groups -> option R) {struct r} : option R :=
  match r with
  | Lit p =>
      match drop_prefix p s with
      | Some rest => k rest g
      | None => None
      end
  | Cls p =>
      match s with
      | String c rest => if p c then k rest g else None
      | EmptyString => None
      end
  | Seq r1 r2 => go r1 s g (fun rest g' => go r2 rest g' k)
  | Alt r1 r2 =>
      match go r1 s g k with
      | Some x => Some x
      | None => go r2 s g k
      end
  | Opt r1 =>
      match go r1 s g k with
      | Some x => Some x
      | None => k s g
      end
  | Plus r1 =>
      (fix rounds (fuel : nat) (s : string) (g : groups) : option R :=
         match fuel with
         | O => None
         | S fuel' =>
             go r1 s g (fun rest g' =>
               if (String.length rest <? String.length s)%nat then
                 match rounds fuel' rest g' with
                 | Some x => Some x
                 | None => k rest g'
                 end
               else k rest g')
         end) (S (String.length s)) s g
  | Grp n r1 =>
      go r1 s g (fun rest g' => k rest (<[n := Text.consumed s rest]> g'))
  end.

(** [re.match(r, s)]: the groups of the first successful parse at the head. *)
Definition match_here (r : regex) (s : string) : option groups :=
  go r s ∅ (fun _ g => Some g).

(** [re.search(r, s)]: the leftmost position where [r] matches. *)
Fixpoint search (r : regex) (s : string) : option groups :=
  match match_here r s with
  | Some g => Some g
  | None =>
      match s with
      | EmptyString => None
      | String _ s' => search r s'
      end
  end.

(** [m.group(n)] of a group that took part in the match. *)
Definition group (n : nat) (g : groups) : string := default "" (g !! n).

End Re.

(* ===================================================================== *)
(** ** Agent: services/ai_agent.py                                       *)
(* ===================================================================== *)

Module Agent.
Import Re.

(** Values held by the [data] dictionary of a parsed intent. *)
Inductive value : Type :=
| VStr (s : string)
| VInt (n : Z)
| VNone.

(** [str(v)] as an f-string renders it; a missing key reads as [None]. *)
Definition render (v : option value) : string :=
  match v with
  | Some (VStr s) => s
  | Some (VInt n) => Text.str_of_int n
  | Some VNone | None => "None"
  end.

(** [data.get(key, dflt)] for a string-valued key. *)
Definition get_str (data : gmap string value) (key dflt : string) : string :=
  match data !! key with
  | Some (VStr s) => s
  | Some (VInt n) => Text.str_of_int n
  | Some VNone => "None"
  | None => dflt
  end.

Definition ws : regex := Plus space.
Definition opt_word (w : string) : regex := Opt (Seq (Lit w) ws).

Definition create_patterns_en : list regex :=
  [ seqs [alts ["add"; "create"; "new"]; ws; opt_word "task"; opt_word "to";
          Grp 1 (Plus dot)];
    seqs [Lit "i"; ws; alts ["need"; "want"]; ws; opt_word "to";
          Grp 1 (Plus dot)];
    seqs [Lit "reminde"; Opt (Lit "r"); ws; opt_word "to"; Grp 1 (Plus dot)] ].

Definition create_patterns_ur : list regex :=
  [ seqs [alts ["kal"; "aaj"; "parso"]; ws; Grp 1 (Plus dot); ws;
          alts ["hai"; "karna"]];
    seqs [Grp 1 (Plus dot); ws; alts ["lena"; "karna"; "hai"]] ].

Definition date_pattern : regex :=
  Grp 1 (Alt (alts ["tomorrow"; "today"; "kal"; "aaj"; "parso"])
          (Alt (seqs [Lit "next"; ws; Plus word])
               (seqs [Plus digit; Lit "/"; Plus digit]))).

Definition list_patterns : list regex :=
  [ seqs [alts ["show"; "list"; "get"; "view"]; ws; opt_word "my";
          alts ["tasks"; "todos"]];
    seqs [Lit "what"; ws; opt_word "are"; Lit "my"; ws;
          alts ["tasks"; "todos"]];
    seqs [alts ["pending"; "active"; "completed"]; ws;
          alts ["tasks"; "todos"]];
    seqs [alts ["mere"; "mere"]; ws; alts ["tasks"; "kaam"]] ].

Definition status_pattern : regex :=
  Grp 1 (alts ["pending"; "active"; "completed"]).

Definition id_patterns (verbs_en verbs_ur : list string) : list regex :=
  [ seqs [alts verbs_en; ws; opt_word "task"; opt_word "id";
          Grp 1 (Plus digit)];
    seqs [alts ["task"; "kaam"]; ws; Grp 1 (Plus digit); ws; alts verbs_ur] ].

Definition complete_patterns : list regex :=
  id_patterns ["mark"; "complete"; "finish"; "done"]
              ["complete"; "khatam"; "done"].

Definition delete_patterns : list regex :=
  id_patterns ["delete"; "remove"; "cancel"] ["delete"; "hata"].

Definition update_pattern : regex :=
  seqs [alts ["update"; "change"; "edit"]; ws; opt_word "task";
        opt_word "id"; Grp 1 (Plus digit); ws; opt_word "to";
        Grp 2 (Plus dot)].

(** [for pattern in patterns: match = re.search(pattern, s); if match: ...]
    the groups of the first pattern that matches. *)
Fixpoint first_match (patterns : list regex) (s : string) : option groups :=
  match patterns with
  | [] => None
  | p :: ps =>
      match search p s with
      | Some g => Some g
      | None => first_match ps s
      end
  end.

Definition summarize_words : list string :=
  ["summarize"; "summary"; "overview"; "kitne tasks"].
Definition help_words : list string :=
  ["help"; "help"; "kya kar sakte"; "commands"].

(** [_parse_intent_rule_based] *)
Definition _parse_intent_rule_based (message : string)
    : string * gmap string value :=
  let message_lower := Text.strip (Text.lower message) in
  match first_match (create_patterns_en ++ create_patterns_ur) message_lower with
  | Some g =>
      let task_text := Text.strip (group 1 g) in
      let date_info := search date_pattern message_lower in
      ("create_task",
       <["title" := VStr (Text.title task_text)]>
       (<["description" :=
            VStr ("Created via AI chat" +:+
                  match date_info with
                  | Some d => " - " +:+ group 1 d
                  | None => ""
                  end)]> ∅))
  | None =>
  match first_match list_patterns message_lower with
  | Some _ =>
      ("list_tasks",
       <["status" := match search status_pattern message_lower with
                     | Some g => VStr (group 1 g)
                     | None => VNone
                     end]> ∅)
  | None =>
  if Text.any_in summarize_words message_lower then ("summarize_tasks", ∅)
  else
  match first_match complete_patterns message_lower with
  | Some g => ("complete_task", <["task_id" := VInt (Text.int_of (group 1 g))]> ∅)
  | None =>
  match first_match delete_patterns message_lower with
  | Some g => ("delete_task", <["task_id" := VInt (Text.int_of (group 1 g))]> ∅)
  | None =>
  match search update_pattern message_lower with
  | Some g =>
      ("update_task",
       <["task_id" := VInt (Text.int_of (group 1 g))]>
       (<["new_title" := VStr (Text.title (Text.strip (group 2 g)))]> ∅))
  | None =>
  if Text.any_in help_words message_lower then ("help", ∅)
  else ("unknown", <["original_message" := VStr message]> ∅)
  end end end end end.

(** Exceptions of the service: [str(e)] is the carried message.
    [RateLimitError] is a subclass of [AIAgentError]; every other class
    (an assertion, a JSON decoding error, a database error) is [Other]. *)
Inductive exn : Type :=
| RateLimitError (msg : string)
| AIAgentError (msg : string)
| Other (msg : string).

Definition str_exn (e : exn) : string :=
  match e with
  | RateLimitError m | AIAgentError m | Other m => m
  end.

Definition nl : string := String (ascii_of_N 10) "".
Definition dq : string := String (ascii_of_N 34) "".

(** The example lines of the two help texts: a quoted command and what
    follows the closing quote. *)
Fixpoint help_lines (items : list (string * string)) : string :=
  match items with
  | [] => ""
  | (cmd, after) :: rest =>
      nl +:+ "- " +:+ dq +:+ cmd +:+ dq +:+ after +:+ help_lines rest
  end.

Definition urdu_words : list string :=
  ["hai"; "karna"; "kal"; "aaj"; "mera"; "mere"; "kaam"].

(** [responses] of the Roman-Urdu branch, then [responses.get(intent)]. *)
Definition responses_ur (data : gmap string value) (intent : string)
    : option string :=
  if decide (intent = "create_task") then
    Some ("✅ Task ban gaya: '" +:+ get_str data "title" "Naya Task" +:+ "'")
  else if decide (intent = "list_tasks") then Some "📋 Ye rahe aapke tasks:"
  else if decide (intent = "summarize_tasks") then
    Some "📊 Aapke tasks ka khulasa:"
  else if decide (intent = "delete_task") then
    Some ("🗑️ Task #" +:+ render (data !! "task_id") +:+ " delete ho gaya")
  else if decide (intent = "complete_task") then
    Some ("✅ Shabaash! Task #" +:+ render (data !! "task_id")
          +:+ " complete ho gaya!")
  else if decide (intent = "update_task") then
    Some ("✏️ Task update ho gaya: '" +:+ render (data !! "new_title") +:+ "'")
  else if decide (intent = "help") then
    Some ("👋 Main aapki madad kar sakta hoon! Try karein:" +:+
          help_lines [("Add task buy milk tomorrow", "");
                      ("Kal doodh lena hai", "");
                      ("Show my tasks", "");
                      ("Task 1 complete karo", "");
                      ("Delete task 3", "")])
  else if decide (intent = "unknown") then
    Some "🤔 Samajh nahi aaya. Try karein: 'Add task buy milk' ya 'Show my tasks'"
  else None.

(** [responses] of the English branch. *)
Definition responses_en (data : gmap string value) (intent : string)
    : option string :=
  if decide (intent = "create_task") then
    Some ("✅ I've created task: '" +:+ get_str data "title" "New Task" +:+ "'")
  else if decide (intent = "list_tasks") then Some "📋 Here are your tasks:"
  else if decide (intent = "summarize_tasks") then
    Some "📊 Here's a summary of your tasks:"
  else if decide (intent = "delete_task") then
    Some ("🗑️ Task #" +:+ render (data !! "task_id") +:+ " has been deleted")
  else if decide (intent = "complete_task") then
    Some ("✅ Great job! Task #" +:+ render (data !! "task_id")
          +:+ " marked complete!")
  else if decide (intent = "update_task") then
    Some ("✏️ Task updated to: '" +:+ render (data !! "new_title") +:+ "'")
  else if decide (intent = "help") then
    Some ("👋 I can help you manage tasks! Try saying:" +:+
          help_lines [("Add task buy milk tomorrow", "");
                      ("Kal doodh lena hai", " (Roman Urdu)");
                      ("Show my tasks", "");
                      ("Mark task 1 as done", "");
                      ("Delete task 3", "")])
  else if decide (intent = "unknown") then
    Some "🤔 I didn't understand. Try: 'Add task buy milk' or 'Show my tasks'"
  else None.

(** The language test of [_generate_response_rule_based]: it reads the key
    [original_message] of [data]. *)
Definition is_urdu (data : gmap string value) : bool :=
  Text.any_in urdu_words (Text.lower (get_str data "original_message" "")).

(** [_generate_response_rule_based] *)
Definition _generate_response_rule_based (intent : string)
    (data : gmap string value) : string :=
  default "I've processed your request!"
    ((if is_urdu data then responses_ur else responses_en) data intent).

(** *** The generative strategies.  What the network and the local model
    do is an input of the model. *)

Inductive ModelMode : Type := HF_API | LOCAL | RULE_BASED.

Definition mode_value (m : ModelMode) : string :=
  match m with
  | HF_API => "huggingface_api"
  | LOCAL => "local"
  | RULE_BASED => "rule_based"
  end.

(** One attempt of the POST in [_generate_response_hf_api]. *)
Inductive http_outcome : Type :=
| HttpOk (generated : string)   (* 2xx and the generated text was read *)
| HttpStatus (code : Z)         (* raise_for_status: HTTPStatusError *)
| HttpRequestError              (* httpx.RequestError *)
| HttpRaises (e : exn).         (* anything the handlers do not catch *)

Record agent : Type := {
  mode : ModelMode;
  max_retries : nat;
  http : nat -> http_outcome;   (* outcome of attempt number n *)
  local_generator : option (string -> gmap string value -> option string)
    (* the local pipeline; [None] inside stands for every path of
       [_generate_response_local] that falls back *)
}.

(** The [for attempt in range(self.max_retries)] loop, from [attempt] with
    [left] rounds to go; [None] is leaving the loop for the fallback. *)
Fixpoint hf_attempts (a : agent) (attempt left : nat)
    : exn + option string :=
  match left with
  | O => inr None
  | S left' =>
      match http a attempt with
      | HttpOk generated => inr (Some (Text.strip generated))
      | HttpStatus code =>
          if decide (code = 503) then hf_attempts a (S attempt) left'
          else if decide (code = 429) then
            inl (RateLimitError "HF API rate limit exceeded. Try again later.")
          else inr None
      | HttpRequestError =>
          if decide (attempt = (max_retries a - 1)%nat) then inr None
          else hf_attempts a (S attempt) left'
      | HttpRaises e => inl e
      end
  end.

(** [_generate_response_hf_api] *)
Definition _generate_response_hf_api (a : agent) (intent : string)
    (data : gmap string value) : exn + string :=
  match hf_attempts a 0 (max_retries a) with
  | inl e => inl e
  | inr (Some generated) =>
      inr (if decide (generated = "")
           then _generate_response_rule_based intent data
           else generated)
  | inr None => inr (_generate_response_rule_based intent data)
  end.

(** [_generate_response_local] *)
Definition _generate_response_local (a : agent) (intent : string)
    (data : gmap string value) : string :=
  match local_generator a with
  | None => _generate_response_rule_based intent data
  | Some gen =>
      default (_generate_response_rule_based intent data) (gen intent data)
  end.

Record result : Type := {
  r_intent : string;
  r_data : gmap string value;
  r_response : string;
  r_original_message : string;
  r_mode : string;
}.

(** [process_message] of an initialized agent. *)
Definition process_message (a : agent) (message : string) : exn + result :=
  let '(intent, data) := _parse_intent_rule_based message in
  let response :=
    match mode a with
    | HF_API => _generate_response_hf_api a intent data
    | LOCAL => inr (_generate_response_local a intent data)
    | RULE_BASED => inr (_generate_response_rule_based intent data)
    end in
  match response with
  | inl e => inl e
  | inr text =>
      inr {| r_intent := intent; r_data := data; r_response := text;
             r_original_message := message; r_mode := mode_value (mode a) |}
  end.

(** The agent [QwenAIAgent()] is before and after [initialize] when no
    token and no local model are there. *)
Definition rule_based_agent : agent :=
  {| mode := RULE_BASED; max_retries := 3;
     http := fun _ => HttpRequestError; local_generator := None |}.

End Agent.

(* ===================================================================== *)
(** ** Domain: the offline CLI (src/domain, src/infrastructure, src/cli)  *)
(* ===================================================================== *)

Module Domain.

Inductive TaskStatus : Type := PENDING | COMPLETED.

Global Instance TaskStatus_eq_dec : EqDecision TaskStatus.
Proof. solve_decision. Defined.

(** The [Task] dataclass. *)
Record Task : Type := {
  id : Z;
  title : string;
  description : option string;
  status : TaskStatus;
  created_at : Z;
  completed_at : option Z;
}.

(** Exceptions the CLI distinguishes; [Unexpected] is any other
    [Exception]. *)
Inductive exn : Type :=
| ValueError (msg : string)
| TaskNotFoundError (task_id : Z)
| Unexpected (msg : string).

(** [str(e)] *)
Definition str_exn (e : exn) : string :=
  match e with
  | ValueError m | Unexpected m => m
  | TaskNotFoundError i => "Task with ID " +:+ Text.str_of_int i +:+ " not found"
  end.

(** [_validate_title]: the stripped title, or the error raised. *)
Definition _validate_title (t : string) : exn + string :=
  if decide (t = "") then inl (ValueError "Title cannot be empty")
  else if decide (Text.strip t = "") then inl (ValueError "Title cannot be empty")
  else if (200 <? String.length (Text.strip t))%nat
       then inl (ValueError "Title cannot exceed 200 characters")
       else inr (Text.strip t).

(** [_normalize_description] *)
Definition _normalize_description (d : option string) : exn + option string :=
  match d with
  | None => inr None
  | Some d =>
      if decide (Text.strip d = "") then inr None
      else if (1000 <? String.length (Text.strip d))%nat
           then inl (ValueError "Description cannot exceed 1000 characters")
           else inr (Some (Text.strip d))
  end.

(** [Task(title=..., description=...)] at time [now]: the generated
    [__init__] followed by [__post_init__]. *)
Definition new_task (now : Z) (t : string) (d : option string) : exn + Task :=
  match _validate_title t with
  | inl e => inl e
  | inr t' =>
      match _normalize_description d with
      | inl e => inl e
      | inr d' =>
          inr {| id := 0; title := t'; description := d'; status := PENDING;
                 created_at := now; completed_at := None |}
      end
  end.

(** [mark_complete] *)
Definition mark_complete (now : Z) (t : Task) : Task :=
  {| id := id t; title := title t; description := description t;
     status := COMPLETED; created_at := created_at t;
     completed_at := Some now |}.

Definition set_id (i : Z) (t : Task) : Task :=
  {| id := i; title := title t; description := description t;
     status := status t; created_at := created_at t;
     completed_at := completed_at t |}.

Definition set_title (s : string) (t : Task) : Task :=
  {| id := id t; title := s; description := description t;
     status := status t; created_at := created_at t;
     completed_at := completed_at t |}.

Definition set_description (d : string) (t : Task) : Task :=
  {| id := id t; title := title t; description := Some d;
     status := status t; created_at := created_at t;
     completed_at := completed_at t |}.

(** *** InMemoryTaskRepository *)

Record repository : Type := {
  _tasks : gmap Z Task;
  _next_id : Z;
}.

(** [InMemoryTaskRepository()] *)
Definition empty_repository : repository := {| _tasks := ∅; _next_id := 1 |}.

Definition add (r : repository) (t : Task) : repository * Task :=
  let t' := set_id (_next_id r) t in
  ({| _tasks := <[_next_id r := t']> (_tasks r); _next_id := _next_id r + 1 |},
   t').

Definition get_by_id (r : repository) (i : Z) : exn + option Task :=
  if decide (i <= 0)
  then inl (ValueError ("Invalid task ID: " +:+ Text.str_of_int i))
  else inr (_tasks r !! i).

(** [get_all]: the tasks by ascending key. *)
Definition get_all (r : repository) : list Task :=
  omap (fun k => _tasks r !! k) (merge_sort Z.le (elements (dom (_tasks r)))).

Definition update (r : repository) (t : Task) : exn + repository * Task :=
  match _tasks r !! id t with
  | None => inl (TaskNotFoundError (id t))
  | Some _ =>
      inr ({| _tasks := <[id t := t]> (_tasks r); _next_id := _next_id r |}, t)
  end.

Definition delete (r : repository) (i : Z) : exn + repository * bool :=
  if decide (i <= 0)
  then inl (ValueError ("Invalid task ID: " +:+ Text.str_of_int i))
  else match _tasks r !! i with
       | Some _ =>
           inr ({| _tasks := base.delete i (_tasks r); _next_id := _next_id r |},
                true)
       | None => inr (r, false)
       end.

(** *** cli/commands.py.  A handler returns the repository it leaves behind
    and the exception it raised, if any; what it prints on stdout is not
    modelled. *)

Definition handled : Type := (repository * option exn)%type.

Definition handle_add (now : Z) (r : repository) (t : string)
    (d : option string) : handled :=
  match new_task now t d with
  | inl e => (r, Some e)
  | inr task => (fst (add r task), None)
  end.

Definition handle_list (r : repository) : handled := (r, None).

(** The task read by [get_by_id] is the object held by the dictionary, so
    an assignment to one of its fields changes the stored task at once,
    before [repository.update] runs. *)
Definition mutate (r : repository) (key : Z) (t : Task) : repository :=
  {| _tasks := <[key := t]> (_tasks r); _next_id := _next_id r |}.

Definition handle_update (r : repository) (task_id : Z)
    (t d : option string) : handled :=
  match get_by_id r task_id with
  | inl e => (r, Some e)
  | inr None => (r, Some (TaskNotFoundError task_id))
  | inr (Some existing) =>
      let existing :=
        match t with Some s => set_title s existing | None => existing end in
      let existing :=
        match d with Some s => set_description s existing | None => existing end in
      let r1 := mutate r task_id existing in
      match update r1 existing with
      | inl e => (r1, Some e)
      | inr (r2, _) => (r2, None)
      end
  end.

Definition handle_delete (r : repository) (task_id : Z) : handled :=
  match delete r task_id with
  | inl e => (r, Some e)
  | inr (r', true) => (r', None)
  | inr (r', false) => (r', Some (TaskNotFoundError task_id))
  end.

Definition handle_complete (now : Z) (r : repository) (task_id : Z)
    : handled :=
  match get_by_id r task_id with
  | inl e => (r, Some e)
  | inr None => (r, Some (TaskNotFoundError task_id))
  | inr (Some task) =>
      let task := mark_complete now task in
      let r1 := mutate r task_id task in
      match update r1 task with
      | inl e => (r1, Some e)
      | inr (r2, _) => (r2, None)
      end
  end.

(** *** cli/main.py *)

(** What [create_parser] declares: the sub-command with its arguments. *)
Inductive command : Type :=
| Add (title : string) (description : option string)
| List
| Update (id : Z) (title description : option string)
| Delete (id : Z)
| Complete (id : Z).

(** How [parser.parse_args(args)] ends.  argparse leaves through
    [parser.error], which raises [SystemExit(2)], on an invocation it
    rejects (unknown command, missing argument, an [id] that [int] refuses);
    it prints and raises [SystemExit(0)] for [--help] and [--version];
    otherwise it returns the namespace, whose [command] is [None] when no
    sub-command was given. *)
Inductive parse_result : Type :=
| UsageError
| InfoExit
| Namespace (command : option command).

(** Where the run ended. *)
Inductive ending : Type :=
| ArgparseExit          (* SystemExit raised inside parse_args *)
| NoCommand             (* the [if not parsed_args.command] branch *)
| Returned              (* [return 0] at the end of the [try] body *)
| ExceptValueError      (* [except ValueError] *)
| ExceptTaskNotFound    (* [except TaskNotFoundError] *)
| ExceptException.      (* [except Exception] *)

Record outcome : Type := {
  exit_code : Z;      (* the status [sys.exit(main())] ends the process with *)
  ended : ending;
  stderr : string;    (* the line [main] itself writes to stderr *)
}.

Definition dispatch (now : Z) (r : repository) (c : command) : handled :=
  match c with
  | Add t d => handle_add now r t d
  | List => handle_list r
  | Update i t d => handle_update r i t d
  | Delete i => handle_delete r i
  | Complete i => handle_complete now r i
  end.

(** [main] from the point where [parse_args] has answered. *)
Definition run (now : Z) (p : parse_result) : outcome :=
  match p with
  | UsageError => {| exit_code := 2; ended := ArgparseExit; stderr := "" |}
  | InfoExit => {| exit_code := 0; ended := ArgparseExit; stderr := "" |}
  | Namespace None => {| exit_code := 1; ended := NoCommand; stderr := "" |}
  | Namespace (Some c) =>
      match snd (dispatch now empty_repository c) with
      | None => {| exit_code := 0; ended := Returned; stderr := "" |}
      | Some (ValueError m) =>
          {| exit_code := 1; ended := ExceptValueError;
             stderr := "Error: " +:+ str_exn (ValueError m) |}
      | Some (TaskNotFoundError i) =>
          {| exit_code := 1; ended := ExceptTaskNotFound;
             stderr := "Error: " +:+ str_exn (TaskNotFoundError i) |}
      | Some (Unexpected m) =>
          {| exit_code := 1; ended := ExceptException;
             stderr := "Unexpected error: " +:+ str_exn (Unexpected m) |}
      end
  end.

(** *** The argument grammar of [create_parser], for plainly written
    command lines: the sub-command word, positional arguments, and the
    options spelled exactly [-d], [--description], [-t], [--title], [-h],
    [--help], [--version] with the value in the next token.  [parse_args]
    answers [None] on a command line outside this fragment (an abbreviated
    or [=]-joined option, [--], any other token that starts with a dash). *)

(** [int(token)]: blanks around (the C locale's: TAB to CR and the space), an
    optional sign, digits that single underscores may separate. *)
Definition is_blank (c : ascii) : bool :=
  (Text.in_range 9 13 c || N.eqb (Text.code c) 32)%bool.

Fixpoint skip_blanks (s : string) : string :=
  match s with
  | EmptyString => EmptyString
  | String c s' => if is_blank c then skip_blanks s' else s
  end.

Fixpoint all_blank (s : string) : bool :=
  match s with
  | EmptyString => true
  | String c s' => (is_blank c && all_blank s')%bool
  end.

Fixpoint digits_us (sep_ok : bool) (acc : Z) (s : string) : option Z :=
  match s with
  | EmptyString => if sep_ok then Some acc else None
  | String c s' =>
      if Text.is_digit c
      then digits_us true (10 * acc + Z.of_N (Text.code c - 48)) s'
      else if (N.eqb (Text.code c) 95 && sep_ok)%bool
           then digits_us false acc s'
           else if (sep_ok && all_blank s)%bool then Some acc else None
  end.

Definition py_int (tok : string) : option Z :=
  match skip_blanks tok with
  | String "-" ds => Z.opp <$> digits_us false 0 ds
  | String "+" ds => digits_us false 0 ds
  | ds => digits_us false 0 ds
  end.

Fixpoint all_digits (s : string) : bool :=
  match s with
  | EmptyString => true
  | String c s' => (Text.is_digit c && all_digits s')%bool
  end.

(** A token argparse reads as an argument rather than as an option: it
    does not start with a dash, or is the lone dash, or is a dash and
    digits (this parser has no option that looks like a number). *)
Definition is_argument (tok : string) : bool :=
  match tok with
  | String "-" EmptyString => true
  | String "-" ds => all_digits ds
  | _ => true
  end.

Inductive positional : Type := NoPositional | TitleArg | IdArg.

Record subparser : Type := {
  sp_positional : positional;
  sp_title_option : bool;        (* -t / --title *)
  sp_description_option : bool;  (* -d / --description *)
}.

Record collected : Type := {
  c_title : option string;       (* positional title *)
  c_id : option Z;               (* positional id *)
  c_opt_title : option string;
  c_opt_description : option string;
  c_extras : bool;               (* arguments nothing asked for *)
}.

Definition is_help (tok : string) : bool :=
  bool_decide (tok = "-h" ∨ tok = "--help").
Definition is_title_option (sp : subparser) (tok : string) : bool :=
  (sp_title_option sp && bool_decide (tok = "-t" ∨ tok = "--title"))%bool.
Definition is_description_option (sp : subparser) (tok : string) : bool :=
  (sp_description_option sp
   && bool_decide (tok = "-d" ∨ tok = "--description"))%bool.
Definition is_option (sp : subparser) (tok : string) : bool :=
  (is_help tok || is_title_option sp tok || is_description_option sp tok)%bool.

(** Left to right over the tokens after the sub-command word.  [inl] is an
    exit taken on the spot, [inr] what was gathered at the end of input. *)
Fixpoint scan (sp : subparser) (c : collected) (toks : list string)
    : option (parse_result + collected) :=
  match toks with
  | [] => Some (inr c)
  | tok :: rest =>
      if is_help tok then Some (inl InfoExit)
      else if (is_title_option sp tok || is_description_option sp tok)%bool then
        match rest with
        | [] => Some (inl UsageError)
        | v :: rest' =>
            if is_option sp v then Some (inl UsageError)
            else if is_argument v then
              scan sp
                (if is_title_option sp tok
                 then {| c_title := c_title c; c_id := c_id c;
                         c_opt_title := Some v;
                         c_opt_description := c_opt_description c;
                         c_extras := c_extras c |}
                 else {| c_title := c_title c; c_id := c_id c;
                         c_opt_title := c_opt_title c;
                         c_opt_description := Some v;
                         c_extras := c_extras c |})
                rest'
            else None
        end
      else if is_argument tok then
        match sp_positional sp, c_title c, c_id c with
        | TitleArg, None, _ =>
            scan sp {| c_title := Some tok; c_id := c_id c;
                       c_opt_title := c_opt_title c;
                       c_opt_description := c_opt_description c;
                       c_extras := c_extras c |} rest
        | IdArg, _, None =>
            match py_int tok with
            | None => Some (inl UsageError)
            | Some i =>
                scan sp {| c_title := c_title c; c_id := Some i;
                           c_opt_title := c_opt_title c;
                           c_opt_description := c_opt_description c;
                           c_extras := c_extras c |} rest
            end
        | _, _, _ =>
            scan sp {| c_title := c_title c; c_id := c_id c;
                       c_opt_title := c_opt_title c;
                       c_opt_description := c_opt_description c;
                       c_extras := true |} rest
        end
      else None
  end.

Definition nothing : collected :=
  {| c_title := None; c_id := None; c_opt_title := None;
     c_opt_description := None; c_extras := false |}.

(** A sub-parser run: scan, then the checks argparse makes at the end
    (a required argument is missing, arguments were left over). *)
Definition subcommand (sp : subparser) (build : collected -> option command)
    (toks : list string) : option parse_result :=
  match scan sp nothing toks with
  | None => None
  | Some (inl p) => Some p
  | Some (inr c) =>
      match build c with
      | None => Some UsageError
      | Some cmd => Some (if c_extras c then UsageError
                          else Namespace (Some cmd))
      end
  end.

(** [parser.parse_args(args)] for the parser of [create_parser]. *)
Definition parse_args (args : list string) : option parse_result :=
  match args with
  | [] => Some (Namespace None)
  | tok :: rest =>
      if (is_help tok || bool_decide (tok = "--version"))%bool
      then Some InfoExit
      else if negb (is_argument tok) then None
      else if decide (tok = "add") then
        subcommand {| sp_positional := TitleArg; sp_title_option := false;
                      sp_description_option := true |}
          (fun c => t ← c_title c; Some (Add t (c_opt_description c))) rest
      else if decide (tok = "list") then
        subcommand {| sp_positional := NoPositional; sp_title_option := false;
                      sp_description_option := false |}
          (fun _ => Some List) rest
      else if decide (tok = "update") then
        subcommand {| sp_positional := IdArg; sp_title_option := true;
                      sp_description_option := true |}
          (fun c => i ← c_id c;
                    Some (Update i (c_opt_title c) (c_opt_description c))) rest
      else if decide (tok = "delete") then
        subcommand {| sp_positional := IdArg; sp_title_option := false;
                      sp_description_option := false |}
          (fun c => Delete <$> c_id c) rest
      else if decide (tok = "complete") then
        subcommand {| sp_positional := IdArg; sp_title_option := false;
                      sp_description_option := false |}
          (fun c => Complete <$> c_id c) rest
      else Some UsageError
  end.

(** *** A session of handler calls on one repository, as the handler tests
    make them: each call with the reading of the clock it runs at. *)

Definition call (r : repository) (e : Z * command) : repository :=
  fst (dispatch (fst e) r (snd e)).

Definition session (calls : list (Z * command)) : repository :=
  fold_left call calls empty_repository.

(** Every task sits under its own id. *)
Definition well_keyed (r : repository) : Prop :=
  forall k t, _tasks r !! k = Some t -> id t = k.

(** Where the task [t'] under key [k] after a call comes from: the task under
    [k] before it, with the same creation time, whose completion is untouched
    unless the call completes task [k]; or the call is an add, which creates
    it pending and without a completion time. *)
Definition descends (now : Z) (c : command) (old : gmap Z Task) (k : Z)
    (t' : Task) : Prop :=
  (exists t, old !! k = Some t /\ created_at t = created_at t'
     /\ ((completed_at t' = completed_at t /\ status t' = status t)
         \/ (c = Complete k /\ status t' = COMPLETED
             /\ completed_at t' = Some now)))
  \/ ((exists ttl d, c = Add ttl d) /\ status t' = PENDING
      /\ completed_at t' = None /\ created_at t' = now).

(** The completion invariant of a task, with [T] the latest reading of the
    clock so far. *)
Definition completion_ok (T : Z) (t : Task) : Prop :=
  created_at t <= T
  /\ (is_Some (completed_at t) <-> status t = COMPLETED)
  /\ (forall c, completed_at t = Some c -> created_at t <= c <= T).


(** The task a command addresses by number. *)
Definition task_id_of (c : command) : option Z :=
  match c with
  | Update i _ _ | Delete i | Complete i => Some i
  | Add _ _ | List => None
  end.

(** [main(args)] at time [now], on a command line of the fragment. *)
Definition main (now : Z) (args : list string) : option outcome :=
  run now <$> parse_args args.

End Domain.

(* ===================================================================== *)
(** ** Backend: the web service (models, repositories, routers, tools)   *)
(* ===================================================================== *)

Module Backend.

(** *** models *)

(** [models/task.py]: the [tasks] row.  [status] is a plain string. *)
Record Task : Type := {
  id : Z;
  title : string;
  description : option string;
  status : string;
  created_at : Z;
  completed_at : option Z;
}.

Definition PENDING : string := "pending".
Definition COMPLETED : string := "completed".

(** [mark_complete] *)
Definition mark_complete (now : Z) (t : Task) : Task :=
  {| id := id t; title := title t; description := description t;
     status := COMPLETED; created_at := created_at t;
     completed_at := Some now |}.

Definition set_title (s : string) (t : Task) : Task :=
  {| id := id t; title := s; description := description t;
     status := status t; created_at := created_at t;
     completed_at := completed_at t |}.

Definition set_description (d : option string) (t : Task) : Task :=
  {| id := id t; title := title t; description := d;
     status := status t; created_at := created_at t;
     completed_at := completed_at t |}.

(** [models/conversation.py] *)
Record Conversation : Type := {
  conv_id : Z;
  session_id : string;
  conv_created_at : Z;
  updated_at : Z;
}.

(** [models/message.py]; the metadata of an assistant message is the
    triple the chat endpoint stores. *)
Record Message : Type := {
  msg_id : Z;
  conversation_id : Z;
  role : string;
  content : string;
  msg_created_at : Z;
  msg_metadata : option (string * option string * string);
}.

(** The database behind the session: the three tables in insertion order
    and the sequence that numbers the rows of each. *)
Record database : Type := {
  tasks : list Task;
  task_seq : Z;
  conversations : list Conversation;
  conversation_seq : Z;
  messages : list Message;
  message_seq : Z;
}.

Definition empty_database : database :=
  {| tasks := []; task_seq := 1; conversations := []; conversation_seq := 1;
     messages := []; message_seq := 1 |}.

Definition with_tasks (db : database) (ts : list Task) (seq : Z) : database :=
  {| tasks := ts; task_seq := seq;
     conversations := conversations db;
     conversation_seq := conversation_seq db;
     messages := messages db; message_seq := message_seq db |}.

(** Row order of an [ORDER BY key]. *)
Definition by_key {A : Type} (key : A -> Z) (a b : A) : Prop := key a <= key b.

Global Instance by_key_dec {A : Type} (key : A -> Z) : RelDecision (by_key key).
Proof. intros a b. unfold by_key. apply _. Defined.

(** [ORDER BY key]: ascending, rows of equal key in some order. *)
Definition order_by {A : Type} (key : A -> Z) (rows : list A) : list A :=
  merge_sort (by_key key) rows.


(** *** repositories/task_repository.py *)

Module TaskRepository.

(** [add]: the row is inserted under the next number of the sequence. *)
Definition add (db : database) (title : string) (description : option string)
    (now : Z) : database * Task :=
  let t := {| id := task_seq db; title := title; description := description;
              status := PENDING; created_at := now; completed_at := None |} in
  (with_tasks db (tasks db ++ [t]) (task_seq db + 1), t).

Definition get_by_id (db : database) (i : Z) : option Task :=
  find (fun t => bool_decide (id t = i)) (tasks db).

Definition get_all (db : database) : list Task :=
  order_by created_at (tasks db).

(** [update]: the tracked row is written back. *)
Definition update (db : database) (t : Task) : database * Task :=
  (with_tasks db
     (map (fun r => if bool_decide (id r = id t) then t else r) (tasks db))
     (task_seq db), t).

Definition delete (db : database) (i : Z) : database * bool :=
  match get_by_id db i with
  | Some _ =>
      (with_tasks db
         (filter (fun r => id r ≠ i) (tasks db)) (task_seq db), true)
  | None => (db, false)
  end.

End TaskRepository.

(** *** schemas/task.py: what request validation lets through *)

Definition length_between (lo hi : nat) (s : string) : bool :=
  ((lo <=? String.length s) && (String.length s <=? hi))%nat.

Definition opt_max_length (hi : nat) (d : option string) : bool :=
  match d with
  | None => true
  | Some s => (String.length s <=? hi)%nat
  end.

(** [TaskCreate] *)
Record TaskCreate : Type := {
  tc_title : string;
  tc_description : option string;
}.

Definition valid_TaskCreate (b : TaskCreate) : bool :=
  (length_between 1 200 (tc_title b) && opt_max_length 1000 (tc_description b))%bool.

(** [TaskUpdate]: a field is unset ([None]), set to null ([Some None]) or
    set to a string. *)
Record TaskUpdate : Type := {
  tu_title : option (option string);
  tu_description : option (option string);
}.

Definition valid_TaskUpdate (b : TaskUpdate) : bool :=
  (match tu_title b with
   | Some (Some s) => length_between 1 200 s
   | _ => true
   end
   && match tu_description b with
      | Some d => opt_max_length 1000 d
      | None => true
      end)%bool.

(** *** routers/tasks.py *)

Inductive response (A : Type) : Type :=
| Reply (status : Z) (body : A)
| HTTPException (status : Z) (detail : string).
Arguments Reply {A} status body.
Arguments HTTPException {A} status detail.

Definition not_found {A : Type} (task_id : Z) : response A :=
  HTTPException 404 ("Task with ID " +:+ Text.str_of_int task_id +:+ " not found").

Definition unprocessable {A : Type} : response A :=
  HTTPException 422 "validation error".

Module Tasks.

Definition list_tasks (db : database) : database * response (list Task) :=
  (db, Reply 200 (TaskRepository.get_all db)).

Definition create_task (now : Z) (db : database) (task_data : TaskCreate)
    : database * response Task :=
  if valid_TaskCreate task_data then
    let '(db', t) := TaskRepository.add db (tc_title task_data)
                       (tc_description task_data) now in
    (db', Reply 201 t)
  else (db, unprocessable).

Definition get_task (db : database) (task_id : Z) : database * response Task :=
  match TaskRepository.get_by_id db task_id with
  | None => (db, not_found task_id)
  | Some t => (db, Reply 200 t)
  end.

(** [update_task].  A title set to null cannot be written to the
    [NOT NULL] column: the commit fails and the request ends in 500. *)
Definition update_task (db : database) (task_id : Z) (task_data : TaskUpdate)
    : database * response Task :=
  if valid_TaskUpdate task_data then
    match TaskRepository.get_by_id db task_id with
    | None => (db, not_found task_id)
    | Some task =>
        match tu_title task_data with
        | Some None => (db, HTTPException 500 "Internal Server Error")
        | new_title =>
            let task := match new_title with
                        | Some (Some s) => set_title s task
                        | _ => task
                        end in
            let task := match tu_description task_data with
                        | Some d => set_description d task
                        | None => task
                        end in
            let '(db', t) := TaskRepository.update db task in
            (db', Reply 200 t)
        end
    end
  else (db, unprocessable).

Definition delete_task (db : database) (task_id : Z) : database * response unit :=
  match TaskRepository.get_by_id db task_id with
  | None => (db, not_found task_id)
  | Some _ => (fst (TaskRepository.delete db task_id), Reply 204 tt)
  end.

Definition complete_task (now : Z) (db : database) (task_id : Z)
    : database * response Task :=
  match TaskRepository.get_by_id db task_id with
  | None => (db, not_found task_id)
  | Some task =>
      let '(db', t) := TaskRepository.update db (mark_complete now task) in
      (db', Reply 200 t)
  end.

End Tasks.

(** *** repositories/conversation_repository.py, message_repository.py *)

Module ConversationRepository.

Definition create (db : database) (sid : string) (now : Z)
    : database * Conversation :=
  let c := {| conv_id := conversation_seq db; session_id := sid;
              conv_created_at := now; updated_at := now |} in
  ({| tasks := tasks db; task_seq := task_seq db;
      conversations := conversations db ++ [c];
      conversation_seq := conversation_seq db + 1;
      messages := messages db; message_seq := message_seq db |}, c).

(** [.first()] of the rows with this [session_id]. *)
Definition get_by_session_id (db : database) (sid : string)
    : option Conversation :=
  find (fun c => bool_decide (session_id c = sid)) (conversations db).

Definition get_or_create (db : database) (sid : string) (now : Z)
    : database * Conversation :=
  match get_by_session_id db sid with
  | Some c => (db, c)
  | None => create db sid now
  end.

Definition update_timestamp (db : database) (c : Conversation) (now : Z)
    : database :=
  let c' := {| conv_id := conv_id c; session_id := session_id c;
               conv_created_at := conv_created_at c; updated_at := now |} in
  {| tasks := tasks db; task_seq := task_seq db;
     conversations :=
       map (fun r => if bool_decide (conv_id r = conv_id c) then c' else r)
           (conversations db);
     conversation_seq := conversation_seq db;
     messages := messages db; message_seq := message_seq db |}.

End ConversationRepository.

Module MessageRepository.

Definition add (db : database) (cid : Z) (role content : string)
    (metadata : option (string * option string * string)) (now : Z)
    : database * Message :=
  let m := {| msg_id := message_seq db; conversation_id := cid;
              role := role; content := content; msg_created_at := now;
              msg_metadata := metadata |} in
  ({| tasks := tasks db; task_seq := task_seq db;
      conversations := conversations db;
      conversation_seq := conversation_seq db;
      messages := messages db ++ [m];
      message_seq := message_seq db + 1 |}, m).

Definition of_conversation (db : database) (cid : Z) : list Message :=
  filter (fun m => conversation_id m = cid) (messages db).

(** [get_by_conversation] *)
Definition get_by_conversation (db : database) (cid : Z) (limit : nat)
    : list Message :=
  take limit (order_by msg_created_at (of_conversation db cid)).


End MessageRepository.

(** *** services/mcp_tools.py *)

Module MCPTaskTools.

(** The dictionary a tool returns; every shape but [Failure] has
    [success = True]. *)
Inductive tool_result : Type :=
| TaskResult (action : string) (task : Task)
| ListResult (tasks : list Task) (count : nat)
| SummaryResult (total pending completed : nat)
    (pending_tasks completed_tasks : list Task)
| DeletedResult (task_id : Z)
| Failure (action error : string).

Definition success (r : tool_result) : bool :=
  match r with
  | Failure _ _ => false
  | _ => true
  end.

Definition get_task_by_id (db : database) (task_id : Z) : option Task :=
  TaskRepository.get_by_id db task_id.

(** [create_task].  The table model is built without validation, so the
    title is stored as it is handed in. *)
Definition create_task (now : Z) (db : database) (title : string)
    (description : option string) : database * tool_result :=
  let '(db', t) := TaskRepository.add db title description now in
  (db', TaskResult "task_created" t).

Definition has_status (s : string) (t : Task) : bool :=
  bool_decide (status t = s).

Definition list_tasks (db : database) (st : option string) : tool_result :=
  let all := TaskRepository.get_all db in
  let shown := match st with
               | Some s => if decide (s = "") then all
                           else List.filter (has_status s) all
               | None => all
               end in
  ListResult shown (length shown).

Definition not_found_error (task_id : Z) : string :=
  "Task " +:+ Text.str_of_int task_id +:+ " not found".

Definition update_task (db : database) (task_id : Z)
    (title description : option string) : database * tool_result :=
  match TaskRepository.get_by_id db task_id with
  | None => (db, Failure "update_failed" (not_found_error task_id))
  | Some task =>
      let task := match title with
                  | Some s => if decide (s = "") then task else set_title s task
                  | None => task
                  end in
      let task := match description with
                  | Some s => if decide (s = "") then task
                              else set_description (Some s) task
                  | None => task
                  end in
      let '(db', t) := TaskRepository.update db task in
      (db', TaskResult "task_updated" t)
  end.

Definition delete_task (db : database) (task_id : Z) : database * tool_result :=
  match TaskRepository.get_by_id db task_id with
  | None => (db, Failure "delete_failed" (not_found_error task_id))
  | Some _ => (fst (TaskRepository.delete db task_id), DeletedResult task_id)
  end.

Definition complete_task (now : Z) (db : database) (task_id : Z)
    : database * tool_result :=
  match TaskRepository.get_by_id db task_id with
  | None => (db, Failure "complete_failed" (not_found_error task_id))
  | Some task =>
      let '(db', t) := TaskRepository.update db (mark_complete now task) in
      (db', TaskResult "task_completed" t)
  end.

Definition summarize_tasks (db : database) : tool_result :=
  let all_tasks := TaskRepository.get_all db in
  let pending := List.filter (has_status "pending") all_tasks in
  let completed := List.filter (has_status "completed") all_tasks in
  SummaryResult (length all_tasks) (length pending) (length completed)
    (take 5 pending) (take 5 completed).

End MCPTaskTools.

(** *** schemas/chat.py *)

Record ChatRequest : Type := {
  message : string;
  req_session_id : string;
}.

Definition valid_ChatRequest (r : ChatRequest) : bool :=
  (length_between 1 1000 (message r) && length_between 1 100 (req_session_id r))%bool.

Record TaskData : Type := {
  td_id : Z;
  td_title : string;
  td_description : option string;
  td_status : string;
}.

(** [TaskData] built from the task dictionary of a tool result. *)
Definition task_data (t : Task) : TaskData :=
  {| td_id := id t; td_title := title t; td_description := description t;
     td_status := status t |}.

Record ChatResponse : Type := {
  response_text : string;
  action : option string;
  tasks_field : option (list TaskData);
  task_field : option TaskData;
  resp_conversation_id : Z;
  metadata_intent : string;
  metadata_original_message : string;
  metadata_mode : string;
}.



(** *** routers/chat.py *)

Module Chat.
Import Agent.

(** The readings of [datetime.utcnow()] during one chat turn. *)
Record clock : Type := {
  t_conversation : Z;   (* a conversation created by get_or_create *)
  t_user : Z;           (* the user message *)
  t_tool : Z;           (* a task created or completed by the tool *)
  t_assistant : Z;      (* the assistant message *)
  t_touch : Z;          (* update_timestamp *)
}.

(** What the intent handling leaves in the local variables. *)
Record locals : Type := {
  ai_response : string;
  l_action : option string;
  l_task : option TaskData;
  l_tasks : option (list TaskData);
}.

Definition keep (text : string) (act : option string) : locals :=
  {| ai_response := text; l_action := act; l_task := None; l_tasks := None |}.

(** [data.get(key)] read as an optional string / an int. *)
Definition get_opt_str (data : gmap string value) (key : string)
    : option string :=
  match data !! key with
  | Some (VStr s) => Some s
  | _ => None
  end.

Definition get_int (data : gmap string value) (key : string) : option Z :=
  match data !! key with
  | Some (VInt n) => Some n
  | _ => None
  end.

(** [if x:] on an optional string. *)
Definition truthy (o : option string) : bool :=
  match o with
  | Some s => negb (bool_decide (s = ""))
  | None => false
  end.

(** The user confirmed: ["yes" in m.lower() or "confirm" in m.lower()]. *)
Definition confirmed (msg : string) : bool :=
  (Text.contains "yes" (Text.lower msg)
   || Text.contains "confirm" (Text.lower msg))%bool.

Definition task_not_found (task_id : Z) : string :=
  "❌ Task #" +:+ Text.str_of_int task_id +:+ " not found".

(** The branch of the [delete_task] intent. *)
Definition on_delete (db : database) (msg : string) (task_id : Z)
    : database * locals :=
  if confirmed msg then
    match MCPTaskTools.delete_task db task_id with
    | (db', MCPTaskTools.Failure _ _) => (db', keep (task_not_found task_id) None)
    | (db', _) =>
        (db', keep ("🗑️ Task #" +:+ Text.str_of_int task_id
                    +:+ " has been deleted") (Some "task_deleted"))
    end
  else
    match TaskRepository.get_by_id db task_id with
    | Some task =>
        (db, keep ("⚠️ Are you sure you want to delete '" +:+ title task
                   +:+ "'? Reply 'yes' to confirm")
                  (Some "delete_confirmation"))
    | None => (db, keep (task_not_found task_id) None)
    end.

(** A task intent whose [data] lacks an integer [task_id]; the parser
    never produces one (see [parse_task_id]). *)
Definition no_task_id : exn := Other "task_id".

(** The [if intent == ... elif ...] chain. *)
Definition handle_intent (now : Z) (db : database) (msg intent : string)
    (data : gmap string value) (text : string)
    : exn + database * locals :=
  if decide (intent = "create_task") then
    match MCPTaskTools.create_task now db (get_str data "title" "New Task")
            (get_opt_str data "description") with
    | (db', MCPTaskTools.TaskResult _ t) =>
        inr (db',
             {| ai_response :=
                  if (Text.contains "ban gaya" (Text.lower text)
                      || Text.contains "created" (Text.lower text))%bool
                  then text
                  else "✅ Task created: '" +:+ title t +:+ "'";
                l_action := Some "task_created";
                l_task := Some (task_data t); l_tasks := None |})
    | (db', _) => inr (db', keep text None)
    end
  else if decide (intent = "list_tasks") then
    match MCPTaskTools.list_tasks db (get_opt_str data "status") with
    | MCPTaskTools.ListResult ts count =>
        inr (db,
             {| ai_response :=
                  "📋 You have " +:+ Text.str_of_int (Z.of_nat count)
                  +:+ " task" +:+ (if decide (count = 1%nat) then "" else "s")
                  +:+ (if truthy (get_opt_str data "status")
                       then " with status '" +:+ render (data !! "status") +:+ "'"
                       else "");
                l_action := Some "tasks_listed";
                l_task := None; l_tasks := Some (map task_data ts) |})
    | _ => inr (db, keep text None)
    end
  else if decide (intent = "summarize_tasks") then
    match MCPTaskTools.summarize_tasks db with
    | MCPTaskTools.SummaryResult total pending completed pending_tasks _ =>
        inr (db,
             {| ai_response :=
                  "📊 You have " +:+ Text.str_of_int (Z.of_nat total)
                  +:+ " tasks: " +:+ Text.str_of_int (Z.of_nat pending)
                  +:+ " pending, " +:+ Text.str_of_int (Z.of_nat completed)
                  +:+ " completed";
                l_action := Some "tasks_summarized";
                l_task := None; l_tasks := Some (map task_data pending_tasks) |})
    | _ => inr (db, keep text None)
    end
  else if decide (intent = "delete_task") then
    match get_int data "task_id" with
    | Some task_id => inr (on_delete db msg task_id)
    | None => inl no_task_id
    end
  else if decide (intent = "complete_task") then
    match get_int data "task_id" with
    | Some task_id =>
        match MCPTaskTools.complete_task now db task_id with
        | (db', MCPTaskTools.TaskResult _ t) =>
            inr (db',
                 {| ai_response :=
                      "✅ Great job! Task '" +:+ title t +:+ "' marked complete!";
                    l_action := Some "task_completed";
                    l_task := Some (task_data t); l_tasks := None |})
        | (db', _) => inr (db', keep "❌ Task not found" None)
        end
    | None => inl no_task_id
    end
  else if decide (intent = "update_task") then
    match get_int data "task_id" with
    | Some task_id =>
        match MCPTaskTools.update_task db task_id
                (get_opt_str data "new_title") None with
        | (db', MCPTaskTools.TaskResult _ t) =>
            inr (db',
                 {| ai_response := "✏️ Task updated to: '" +:+ title t +:+ "'";
                    l_action := Some "task_updated";
                    l_task := Some (task_data t); l_tasks := None |})
        | (db', _) => inr (db', keep "❌ Task not found" None)
        end
    | None => inl no_task_id
    end
  else if decide (intent = "help") then inr (db, keep text (Some "help_provided"))
  else if decide (intent = "unknown") then inr (db, keep text (Some "unknown_intent"))
  else inr (db, keep text None).

(** The three [except] clauses. *)
Definition on_exception (e : exn) : response ChatResponse :=
  match e with
  | RateLimitError _ =>
      HTTPException 429 "Rate limit exceeded. Please try again in a few minutes."
  | AIAgentError m =>
      HTTPException 503 ("AI service temporarily unavailable: " +:+ m)
  | Other m => HTTPException 500 ("Chat error: " +:+ m)
  end.

(** The body of the [try]: the database it leaves behind (rows committed
    before an exception stay) and the response built or the exception
    raised. *)
Definition try_body (a : agent) (clk : clock) (db : database)
    (request : ChatRequest) : database * (exn + ChatResponse) :=
  let '(db1, conversation) :=
    ConversationRepository.get_or_create db (req_session_id request)
      (t_conversation clk) in
  let '(db2, _) :=
    MessageRepository.add db1 (conv_id conversation) "user" (message request)
      None (t_user clk) in
  match process_message a (message request) with
  | inl e => (db2, inl e)
  | inr result =>
      match handle_intent (t_tool clk) db2 (message request)
              (r_intent result) (r_data result) (r_response result) with
      | inl e => (db2, inl e)
      | inr (db3, l) =>
          let '(db4, _) :=
            MessageRepository.add db3 (conv_id conversation) "assistant"
              (ai_response l)
              (Some (r_intent result, l_action l, r_mode result))
              (t_assistant clk) in
          let db5 :=
            ConversationRepository.update_timestamp db4 conversation
              (t_touch clk) in
          (db5,
           inr {| response_text := ai_response l; action := l_action l;
                  tasks_field := l_tasks l; task_field := l_task l;
                  resp_conversation_id := conv_id conversation;
                  metadata_intent := r_intent result;
                  metadata_original_message := message request;
                  metadata_mode := r_mode result |})
      end
  end.

(** [chat]: request validation, the [try] body, the [except] clauses. *)
Definition chat (a : agent) (clk : clock) (db : database) (request : ChatRequest)
    : database * response ChatResponse :=
  if valid_ChatRequest request then
    match try_body a clk db request with
    | (db', inr r) => (db', Reply 200 r)
    | (db', inl e) => (db', on_exception e)
    end
  else (db, unprocessable).



End Chat.

(** *** The service as a whole: the requests it answers and the database
    each leaves behind. *)

Module Service.
Import Agent.

Inductive request : Type :=
| ListTasks
| CreateTask (body : TaskCreate)
| GetTask (task_id : Z)
| UpdateTask (task_id : Z) (body : TaskUpdate)
| DeleteTask (task_id : Z)
| CompleteTask (task_id : Z)
| ChatTurn (a : agent) (clk : Chat.clock) (body : ChatRequest)
| History (sid : string).

(** The reading of the clock a task row can receive from a request served
    at [now]: a chat turn stamps tasks with its tool reading. *)
Definition stamp (e : Z * request) : Z :=
  match snd e with
  | ChatTurn _ clk _ => Chat.t_tool clk
  | _ => fst e
  end.

Definition serve (db : database) (e : Z * request) : database :=
  match snd e with
  | ListTasks => fst (Tasks.list_tasks db)
  | CreateTask body => fst (Tasks.create_task (fst e) db body)
  | GetTask i => fst (Tasks.get_task db i)
  | UpdateTask i body => fst (Tasks.update_task db i body)
  | DeleteTask i => fst (Tasks.delete_task db i)
  | CompleteTask i => fst (Tasks.complete_task (fst e) db i)
  | ChatTurn a clk body => fst (Chat.chat a clk db body)
  | History _ => db
  end.

(** The database after a run of requests on the empty database. *)
Definition run (trace : list (Z * request)) : database :=
  fold_left serve trace empty_database.

(** The request asks to complete task [i]: the complete endpoint, or a chat
    turn classified complete_task for that id. *)
Definition completes (r : request) (i : Z) : Prop :=
  match r with
  | CompleteTask j => j = i
  | ChatTurn _ _ body =>
      exists data,
        _parse_intent_rule_based (message body) = ("complete_task", data)
        /\ Chat.get_int data "task_id" = Some i
  | _ => False
  end.

(** The request asks to create a task: the create endpoint, or a chat turn
    classified create_task. *)
Definition creates (r : request) : Prop :=
  match r with
  | CreateTask _ => True
  | ChatTurn _ _ body =>
      fst (_parse_intent_rule_based (message body)) = "create_task"
  | _ => False
  end.

(** Where a row [t'] of the table after a request comes from: a row of the
    table before it with the same id and creation time, whose completion is
    untouched unless the request completes that task at [st]; or the request
    creates it, pending and without a completion time, at [st]. *)
Definition descends (st : Z) (may_complete : Z -> Prop) (may_create : Prop)
    (old : list Task) (t' : Task) : Prop :=
  (exists t, t ∈ old /\ id t = id t' /\ created_at t = created_at t'
     /\ ((completed_at t' = completed_at t /\ status t' = status t)
         \/ (may_complete (id t') /\ status t' = COMPLETED
             /\ completed_at t' = Some st)))
  \/ (may_create /\ status t' = PENDING /\ completed_at t' = None
      /\ created_at t' = st).

(** The completion invariant of a row, with [T] the latest reading of the
    clock so far. *)
Definition completion_ok (T : Z) (t : Task) : Prop :=
  created_at t <= T
  /\ (is_Some (completed_at t) <-> status t = COMPLETED)
  /\ (forall c, completed_at t = Some c -> created_at t <= c <= T).

End Service.

End Backend.


(* ===================================================================== *)
(** ** Sample inputs, after the repository's test suites                 *)
(* ===================================================================== *)

Module Samples.
Import Agent Backend Backend.Chat.

(** A table that holds one pending task, numbered 1. *)
Definition one_task : database :=
  fst (Tasks.create_task 10 empty_database
         {| tc_title := "x"; tc_description := None |}).

Definition turn_clock : clock :=
  {| t_conversation := 20; t_user := 21; t_tool := 22; t_assistant := 23;
     t_touch := 24 |}.

Definition delete_task_1 : ChatRequest :=
  {| message := "Delete task 1"; req_session_id := "s" |}.

(** An agent in API mode whose endpoint answers 200 with a body that is not
    JSON: [response.json()] raises a decoding error, which neither [except]
    clause of [_generate_response_hf_api] catches. *)
Definition not_json : string := "Expecting value: line 1 column 1 (char 0)".

Definition json_error_agent : agent :=
  {| mode := HF_API; max_retries := 3;
     http := fun _ => HttpRaises (Other not_json);
     local_generator := None |}.

Definition hello : ChatRequest :=
  {| message := "hello"; req_session_id := "s" |}.

End Samples.

(* ===================================================================== *)
(** ** Startup of the agent and the settings                              *)
(* ===================================================================== *)

Module Startup.
Import Agent.

(** What [_test_hf_api] meets when it posts its test request. *)
Inductive api_test : Type :=
| TestPassed                      (* a 2xx answer *)
| TestStatus (code : Z)           (* raise_for_status: HTTPStatusError *)
| TestRequestError (msg : string) (* httpx.RequestError *)
| TestRaises (msg : string).      (* any other exception: not caught *)

(** What [initialize] depends on: the token handed to the constructor, the
    two optional imports, the answer of the inference endpoint and whether
    the local model loads. *)
Record environment : Type := {
  hf_token : option string;
  HTTPX_AVAILABLE : bool;
  TRANSFORMERS_AVAILABLE : bool;
  test_request : api_test;
  local_model_error : option string;   (* what loading the model raises *)
}.

(** [if self.hf_token] *)
Definition has_token (env : environment) : bool :=
  match hf_token env with
  | Some t => negb (bool_decide (t = ""))
  | None => false
  end.

(** [_test_hf_api]: the exception raised, if any.  [ModelLoadError] and
    [InferenceError] are agent errors. *)
Definition _test_hf_api (env : environment) : option exn :=
  match test_request env with
  | TestPassed => None
  | TestStatus code =>
      if decide (code = 503) then None
      else if decide (code = 401)
           then Some (AIAgentError "Invalid HF_TOKEN. Check your token.")
      else if decide (code = 429)
           then Some (RateLimitError "HF API rate limit exceeded.")
      else Some (AIAgentError ("HF API error: " +:+ Text.str_of_int code))
  | TestRequestError msg => Some (AIAgentError ("Network error: " +:+ msg))
  | TestRaises msg => Some (Other msg)
  end.

(** [_init_hf_api] *)
Definition _init_hf_api (env : environment) : option exn :=
  if negb (has_token env)
  then Some (AIAgentError "HF_TOKEN is required for API mode")
  else if negb (HTTPX_AVAILABLE env)
       then Some (AIAgentError "httpx not installed. Run: pip install httpx")
       else _test_hf_api env.

(** [_init_local_model] *)
Definition _init_local_model (env : environment) : option exn :=
  match local_model_error env with
  | None => None
  | Some e => Some (AIAgentError ("Failed to load local model: " +:+ e))
  end.

(** [initialize] of a fresh agent: the mode it ends in.  Both attempts sit in
    a [try] whose [except Exception] only logs a warning. *)
Definition initialize (env : environment) : ModelMode :=
  let api :=
    if (has_token env && HTTPX_AVAILABLE env)%bool
    then match _init_hf_api env with None => true | Some _ => false end
    else false in
  let local :=
    if TRANSFORMERS_AVAILABLE env
    then match _init_local_model env with None => true | Some _ => false end
    else false in
  if api then HF_API else if local then LOCAL else RULE_BASED.

End Startup.

Module Settings.

(** [s.split(sep)] for a one-character separator: the pieces between the
    separators, one more than there are separators. *)
Fixpoint split (sep : ascii) (s : string) : list string :=
  match s with
  | EmptyString => [EmptyString]
  | String c s' =>
      if Ascii.eqb c sep then EmptyString :: split sep s'
      else match split sep s' with
           | piece :: rest => String c piece :: rest
           | [] => [String c EmptyString]
           end
  end.

Definition comma : ascii := ascii_of_N 44.

(** [get_cors_origins] *)
Definition get_cors_origins (cors_origins : string) : list string :=
  map Text.strip (split comma cors_origins).

(** [sep.join(pieces)] *)
Fixpoint join (sep : ascii) (pieces : list string) : string :=
  match pieces with
  | [] => EmptyString
  | [p] => p
  | p :: rest => p +:+ String sep (join sep rest)
  end.

Fixpoint count_char (c : ascii) (s : string) : nat :=
  match s with
  | EmptyString => 0%nat
  | String d s' => ((if Ascii.eqb d c then 1 else 0) + count_char c s')%nat
  end.

End Settings.

(* ===================================================================== *)
(** ** Vocabulary of the further properties                               *)
(* ===================================================================== *)

Module Rounds.
Import Re.

(** The loop of [go] for [r+], named: [go (Plus r) s g k] runs it with one
    round more than [s] has characters. *)
Definition plus_rounds {R : Type} (r1 : regex)
    (k : string -> groups -> option R) : nat -> string -> groups -> option R :=
  fix rounds (fuel : nat) (s : string) (g : groups) : option R :=
    match fuel with
    | O => None
    | S fuel' =>
        go r1 s g (fun rest g' =>
          if (String.length rest <? String.length s)%nat then
            match rounds fuel' rest g' with
            | Some x => Some x
            | None => k rest g'
            end
          else k rest g')
    end.

Fixpoint all_chars (p : ascii -> bool) (s : string) : bool :=
  match s with
  | EmptyString => true
  | String c s' => (p c && all_chars p s')%bool
  end.

End Rounds.

Module Steps.
Import Backend.

(** The three ways a request can change the task table: the rows keep their
    ids, one row is appended under the next id, or the rows of one id go. *)
Definition shape (old new : database) : Prop :=
  (map id (tasks new) = map id (tasks old) /\ task_seq new = task_seq old)
  \/ (exists t, tasks new = tasks old ++ [t] /\ id t = task_seq old
                /\ task_seq new = task_seq old + 1)
  \/ (exists i, tasks new = filter (fun r => id r <> i) (tasks old)
                /\ task_seq new = task_seq old).

End Steps.

(* ===================================================================== *)
(** * Properties                                                          *)
(* ===================================================================== *)

(** ** The intent parser on the documented messages *)

Section Parser.
Import Agent.

(** The classes of the parser answer one of eight intents, and an intent
    fixes which keys [data] holds. *)
Lemma parse_task_id (message intent : string) (data : gmap string value) :
  _parse_intent_rule_based message = (intent, data) ->
  intent = "complete_task" \/ intent = "delete_task" ->
  exists n, data = {[ "task_id" := VInt n ]}.
Proof.
  unfold _parse_intent_rule_based. intros Hp Hi.
  repeat case_match; simplify_eq; destruct Hi as [Hi | Hi];
    try discriminate Hi; eexists; reflexivity.
Qed.

Lemma parse_known_has_no_original (message intent : string)
    (data : gmap string value) :
  _parse_intent_rule_based message = (intent, data) ->
  intent <> "unknown" ->
  data !! "original_message" = None.
Proof.
  unfold _parse_intent_rule_based. intros Hp Hi.
  repeat case_match; simplify_eq; try reflexivity; by vm_compute.
Qed.

(** C3. Parsing "Mark task 5 as done" yields intent complete_task with
    data.task_id = 5; none of the categories tried before it (create, list,
    summarize) matches the lower-cased, trimmed message. *)
Theorem parse_mark_task_5_as_done :
  _parse_intent_rule_based "Mark task 5 as done"
    = ("complete_task", {[ "task_id" := VInt 5 ]})
  /\ first_match (create_patterns_en ++ create_patterns_ur)
       (Text.strip (Text.lower "Mark task 5 as done")) = None
  /\ first_match list_patterns
       (Text.strip (Text.lower "Mark task 5 as done")) = None
  /\ Text.any_in summarize_words
       (Text.strip (Text.lower "Mark task 5 as done")) = false.
Proof. repeat split; vm_compute; reflexivity. Qed.

(** C4. Parsing "Add task buy milk tomorrow" yields intent create_task, the
    title "Buy Milk Tomorrow" (the captured text, title-cased) and the date
    hint "tomorrow", appended to the default description. *)
Theorem parse_add_task_buy_milk_tomorrow :
  _parse_intent_rule_based "Add task buy milk tomorrow"
    = ("create_task",
       <[ "title" := VStr "Buy Milk Tomorrow" ]>
         {[ "description" := VStr "Created via AI chat - tomorrow" ]})
  /\ Re.group 1 <$> Re.search (List.hd (Re.Lit "") create_patterns_en)
                      "add task buy milk tomorrow"
     = Some "buy milk tomorrow"
  /\ Re.group 1 <$> Re.search date_pattern "add task buy milk tomorrow"
     = Some "tomorrow".
Proof. repeat split; vm_compute; reflexivity. Qed.

End Parser.

(** ** The template responses *)

Section Templates.
Import Agent.

(** For every intent but [unknown] the parser leaves [original_message]
    out of [data], so the language test reads the empty string. *)
Lemma known_intent_answers_in_english (message intent : string)
    (data : gmap string value) :
  _parse_intent_rule_based message = (intent, data) ->
  intent <> "unknown" ->
  _generate_response_rule_based intent data
    = default "I've processed your request!" (responses_en data intent).
Proof.
  intros Hp Hi. unfold _generate_response_rule_based, is_urdu, get_str.
  rewrite (parse_known_has_no_original _ _ _ Hp Hi). reflexivity.
Qed.

(** C2 (the code at the failing input). "Kal doodh lena hai" contains the
    keywords kal and hai and is classified create_task, yet the template
    generator answers with the English template, not the Roman-Urdu one. *)
Theorem kal_doodh_lena_hai_answered_in_english :
  Text.any_in urdu_words (Text.lower "Kal doodh lena hai") = true
  /\ (exists r,
        process_message rule_based_agent "Kal doodh lena hai" = inr r
        /\ r_intent r = "create_task"
        /\ r_response r = "✅ I've created task: 'Doodh Lena'"
        /\ responses_en (r_data r) (r_intent r) = Some (r_response r)
        /\ responses_ur (r_data r) (r_intent r)
           = Some "✅ Task ban gaya: 'Doodh Lena'").
Proof.
  split; [vm_compute; reflexivity |].
  eexists. split; [vm_compute; reflexivity |].
  repeat split; vm_compute; reflexivity.
Qed.

End Templates.

(** ** The chat endpoint *)

Section ChatTurn.
Import Agent Backend Backend.Chat Samples.

Lemma get_or_create_tasks db sid now :
  tasks (fst (ConversationRepository.get_or_create db sid now)) = tasks db.
Proof.
  unfold ConversationRepository.get_or_create.
  destruct (ConversationRepository.get_by_session_id db sid); reflexivity.
Qed.

Lemma get_by_id_tasks db db' i :
  tasks db' = tasks db ->
  TaskRepository.get_by_id db' i = TaskRepository.get_by_id db i.
Proof. unfold TaskRepository.get_by_id. intros ->. reflexivity. Qed.

Lemma add_message_tasks db cid r c md now :
  tasks (fst (MessageRepository.add db cid r c md now)) = tasks db.
Proof. reflexivity. Qed.

Lemma update_timestamp_tasks db c now :
  tasks (ConversationRepository.update_timestamp db c now) = tasks db.
Proof. reflexivity. Qed.

(** [process_message] raises or answers with the parser's intent and data. *)
Lemma process_message_parse a msg intent data :
  _parse_intent_rule_based msg = (intent, data) ->
  (exists e, process_message a msg = inl e)
  \/ (exists r, process_message a msg = inr r
                /\ r_intent r = intent /\ r_data r = data).
Proof.
  intros Hp. unfold process_message. rewrite Hp.
  destruct (mode a); [destruct (_generate_response_hf_api a intent data) | |];
    eauto 6.
Qed.

Lemma rule_based_never_raises a msg :
  mode a = RULE_BASED -> exists r, process_message a msg = inr r.
Proof.
  intros Hm. unfold process_message.
  destruct (_parse_intent_rule_based msg). rewrite Hm. eauto.
Qed.

Lemma handle_intent_delete now db msg data text :
  handle_intent now db msg "delete_task" data text
  = match get_int data "task_id" with
    | Some task_id => inr (on_delete db msg task_id)
    | None => inl no_task_id
    end.
Proof. reflexivity. Qed.

Lemma on_delete_unconfirmed db msg task_id :
  confirmed msg = false ->
  on_delete db msg task_id
  = (db, match TaskRepository.get_by_id db task_id with
         | Some task =>
             keep ("⚠️ Are you sure you want to delete '" +:+ title task
                   +:+ "'? Reply 'yes' to confirm")
                  (Some "delete_confirmation")
         | None => keep (task_not_found task_id) None
         end).
Proof.
  intros Hc. unfold on_delete. rewrite Hc.
  destruct (TaskRepository.get_by_id db task_id); reflexivity.
Qed.

(** C1. A chat turn whose message is classified delete_task and contains
    neither "yes" nor "confirm" (case-insensitively) leaves the task table
    as it was, and when the referenced task exists the turn, unless the
    response generator raised, answers 200 with the confirmation question
    and the action tag "delete_confirmation"; so a turn classified
    delete_task that changes the task table carries a confirmation word. *)
Theorem delete_waits_for_confirmation a clk db request data :
  valid_ChatRequest request = true ->
  _parse_intent_rule_based (message request) = ("delete_task", data) ->
  exists task_id,
    data = {[ "task_id" := VInt task_id ]}
    /\ (confirmed (message request) = false ->
        tasks (fst (chat a clk db request)) = tasks db
        /\ task_seq (fst (chat a clk db request)) = task_seq db
        /\ forall task,
             TaskRepository.get_by_id db task_id = Some task ->
             (exists e, process_message a (message request) = inl e
                        /\ snd (chat a clk db request) = on_exception e)
             \/ (exists resp,
                   snd (chat a clk db request) = Reply 200 resp
                   /\ action resp = Some "delete_confirmation"
                   /\ response_text resp
                      = "⚠️ Are you sure you want to delete '" +:+ title task
                        +:+ "'? Reply 'yes' to confirm"))
    /\ (tasks (fst (chat a clk db request)) <> tasks db ->
        confirmed (message request) = true).
Proof.
  intros Hv Hp.
  destruct (parse_task_id _ _ _ Hp) as [task_id ->]; [by right |].
  exists task_id. split; [reflexivity |].
  assert (Hun : confirmed (message request) = false ->
                tasks (fst (chat a clk db request)) = tasks db
                /\ task_seq (fst (chat a clk db request)) = task_seq db
                /\ forall task,
                     TaskRepository.get_by_id db task_id = Some task ->
                     (exists e, process_message a (message request) = inl e
                        /\ snd (chat a clk db request) = on_exception e)
                     \/ (exists resp,
                           snd (chat a clk db request) = Reply 200 resp
                           /\ action resp = Some "delete_confirmation"
                           /\ response_text resp
                              = "⚠️ Are you sure you want to delete '"
                                +:+ title task +:+ "'? Reply 'yes' to confirm")).
  { intros Hc. unfold chat. rewrite Hv. unfold try_body.
    pose proof (get_or_create_tasks db (req_session_id request)
                  (t_conversation clk)) as Ht1.
    assert (Hs1 : task_seq (fst (ConversationRepository.get_or_create db
                     (req_session_id request) (t_conversation clk)))
                  = task_seq db).
    { unfold ConversationRepository.get_or_create.
      destruct (ConversationRepository.get_by_session_id db
                  (req_session_id request)); reflexivity. }
    destruct (ConversationRepository.get_or_create db (req_session_id request)
                (t_conversation clk)) as [db1 conversation].
    simpl in Ht1, Hs1.
    destruct (MessageRepository.add db1 (conv_id conversation) "user"
                (message request) None (t_user clk)) as [db2 m] eqn:Hadd.
    assert (Ht2 : tasks db2 = tasks db).
    { rewrite <- Ht1. replace db2 with (fst (db2, m)) by reflexivity.
      rewrite <- Hadd. reflexivity. }
    assert (Hs2 : task_seq db2 = task_seq db).
    { rewrite <- Hs1. replace db2 with (fst (db2, m)) by reflexivity.
      rewrite <- Hadd. reflexivity. }
    destruct (process_message_parse a _ _ _ Hp)
      as [[e He] | (r & Hr & Hi & Hd)].
    - rewrite He. simpl. repeat split; try assumption.
      intros task _. left. eauto.
    - rewrite Hr, Hi, Hd, handle_intent_delete.
      change (get_int {[ "task_id" := VInt task_id ]} "task_id")
        with (Some task_id).
      cbv beta iota. rewrite (on_delete_unconfirmed _ _ _ Hc).
      rewrite (get_by_id_tasks db db2 task_id Ht2).
      simpl. repeat split; try assumption.
      intros task Hg. right. rewrite Hg. simpl. eauto. }
  split; [exact Hun |].
  intros Hne. destruct (confirmed (message request)) eqn:Hc; [reflexivity |].
  destruct (Hun eq_refl) as [Heq _]. contradiction.
Qed.

Lemma delete_waits_for_confirmation_witness :
  valid_ChatRequest delete_task_1 = true
  /\ _parse_intent_rule_based (message delete_task_1)
     = ("delete_task", {[ "task_id" := VInt 1 ]})
  /\ confirmed (message delete_task_1) = false
  /\ tasks (fst (chat rule_based_agent turn_clock one_task delete_task_1))
     = tasks one_task
  /\ exists resp,
       snd (chat rule_based_agent turn_clock one_task delete_task_1)
       = Reply 200 resp
       /\ action resp = Some "delete_confirmation".
Proof.
  assert (Hv : valid_ChatRequest delete_task_1 = true) by reflexivity.
  assert (Hp : _parse_intent_rule_based (message delete_task_1)
               = ("delete_task", {[ "task_id" := VInt 1 ]}))
    by (vm_compute; reflexivity).
  assert (Hc : confirmed (message delete_task_1) = false)
    by (vm_compute; reflexivity).
  destruct (delete_waits_for_confirmation rule_based_agent turn_clock
              one_task delete_task_1 _ Hv Hp) as (i & Hi & Hun & _).
  assert (i = 1) as -> by (apply (f_equal (fun d => get_int d "task_id")) in Hi;
                           vm_compute in Hi; congruence).
  destruct (Hun Hc) as (Ht & _ & Hresp).
  repeat split; try assumption.
  destruct (Hresp {| id := 1; title := "x"; description := None;
                     status := PENDING; created_at := 10;
                     completed_at := None |} eq_refl)
    as [(e & He & _) | (resp & Hr & Ha & _)].
  - vm_compute in He. discriminate He.
  - exists resp. split; assumption.
Defined.

(** C8 (as the code has it). An exception of the [try] body that is neither
    a rate-limit nor an agent error is answered with status 500 and the
    detail "Chat error: " followed by the text of the exception. *)
Theorem unexpected_failure_answers_500_with_its_text a clk db request m :
  valid_ChatRequest request = true ->
  snd (try_body a clk db request) = inl (Other m) ->
  snd (chat a clk db request) = HTTPException 500 ("Chat error: " +:+ m).
Proof.
  intros Hv Hb. unfold chat. rewrite Hv.
  destruct (try_body a clk db request) as [db' [e | r]]; simpl in *.
  - inversion Hb; subst. reflexivity.
  - discriminate Hb.
Qed.

Lemma unexpected_failure_answers_500_with_its_text_witness :
  valid_ChatRequest hello = true
  /\ snd (try_body json_error_agent turn_clock empty_database hello)
     = inl (Other not_json)
  /\ snd (chat json_error_agent turn_clock empty_database hello)
     = HTTPException 500 ("Chat error: " +:+ not_json).
Proof.
  assert (Hv : valid_ChatRequest hello = true) by reflexivity.
  assert (Hb : snd (try_body json_error_agent turn_clock empty_database hello)
               = inl (Other not_json)) by (vm_compute; reflexivity).
  split; [exact Hv | split; [exact Hb |]].
  exact (unexpected_failure_answers_500_with_its_text _ _ _ _ _ Hv Hb).
Defined.

(** C8 (counterexample). The decoding error of a malformed upstream body is
    neither a rate-limit nor an agent error; the 500 answer carries its text
    in the detail. *)
Lemma internal_error_detail_carries_exception_text :
  process_message json_error_agent (message hello) = inl (Other not_json)
  /\ exists detail,
       snd (chat json_error_agent turn_clock empty_database hello)
       = HTTPException 500 detail
       /\ Text.contains (str_exn (Other not_json)) detail = true.
Proof.
  split; [vm_compute; reflexivity |].
  eexists. split; vm_compute; reflexivity.
Qed.

End ChatTurn.

(** ** The history endpoint *)

Section History.
Import Backend Backend.Chat.

Global Instance by_key_total {A : Type} (key : A -> Z) : Total (by_key key).
Proof. intros a b. unfold by_key. lia. Qed.

Global Instance by_key_transitive {A : Type} (key : A -> Z) :
  Transitive (by_key key).
Proof. intros a b c. unfold by_key. lia. Qed.

Global Instance by_key_desc_total {A : Type} (key : A -> Z) :
  Total (flip (by_key key)).
Proof. intros a b. unfold flip, by_key. lia. Qed.

Global Instance by_key_desc_transitive {A : Type} (key : A -> Z) :
  Transitive (flip (by_key key)).
Proof. intros a b c. unfold flip, by_key. lia. Qed.





End History.

(** ** The command-line program *)

Section CommandLine.
Import Domain.




(** On the repository a fresh process starts with, a numbered command finds
    nothing. *)
Lemma fresh_repository_finds_nothing now c i :
  task_id_of c = Some i -> 0 < i ->
  snd (dispatch now empty_repository c) = Some (TaskNotFoundError i).
Proof.
  intros Hc Hi.
  destruct c as [t d | | j t d | j | j]; simpl in Hc; simplify_eq; simpl;
    unfold handle_update, handle_delete, handle_complete, get_by_id, delete;
    destruct (decide (i <= 0)); try lia; reflexivity.
Qed.

Lemma nonpositive_id_is_a_value_error now c i :
  task_id_of c = Some i -> i <= 0 ->
  snd (dispatch now empty_repository c)
  = Some (ValueError ("Invalid task ID: " +:+ Text.str_of_int i)).
Proof.
  intros Hc Hi.
  destruct c as [t d | | j t d | j | j]; simpl in Hc; simplify_eq; simpl;
    unfold handle_update, handle_delete, handle_complete, get_by_id, delete;
    destruct (decide (i <= 0)); try lia; reflexivity.
Qed.







(** C10. For an id that is zero or negative, [get_by_id] and [delete] of the
    in-memory repository raise ValueError instead of answering not-found, and
    a delete, update or complete command with such an id ends in the
    [except ValueError] branch of [main] with exit status 1. *)
Theorem nonpositive_id_takes_the_value_error_path r i :
  i <= 0 ->
  get_by_id r i = inl (ValueError ("Invalid task ID: " +:+ Text.str_of_int i))
  /\ delete r i = inl (ValueError ("Invalid task ID: " +:+ Text.str_of_int i))
  /\ forall now c, task_id_of c = Some i ->
       run now (Namespace (Some c))
       = {| exit_code := 1; ended := ExceptValueError;
            stderr := "Error: Invalid task ID: " +:+ Text.str_of_int i |}.
Proof.
  intros Hi. repeat split.
  - unfold get_by_id. destruct (decide (i <= 0)); [reflexivity | lia].
  - unfold delete. destruct (decide (i <= 0)); [reflexivity | lia].
  - intros now c Hc. unfold run.
    rewrite (nonpositive_id_is_a_value_error now c i Hc Hi). reflexivity.
Qed.

Lemma nonpositive_id_takes_the_value_error_path_witness :
  -1 <= 0
  /\ get_by_id empty_repository (-1) = inl (ValueError "Invalid task ID: -1")
  /\ delete empty_repository (-1) = inl (ValueError "Invalid task ID: -1")
  /\ main 0 ["delete"; "-1"]
     = Some {| exit_code := 1; ended := ExceptValueError;
               stderr := "Error: Invalid task ID: -1" |}.
Proof.
  assert (Hi : -1 <= 0) by lia.
  destruct (nonpositive_id_takes_the_value_error_path empty_repository (-1) Hi)
    as (Hg & Hd & Hrun).
  split; [exact Hi | split; [exact Hg | split; [exact Hd |]]].
  change (main 0 ["delete"; "-1"])
    with (Some (run 0 (Namespace (Some (Delete (-1)))))).
  exact (f_equal Some (Hrun 0 (Delete (-1)) eq_refl)).
Defined.

End CommandLine.

(** ** Titles *)

Section Titles.
Import Backend.

Lemma lstrip_first s : Text.first_is_space (Text.lstrip s) = false.
Proof.
  induction s as [| c s IH]; simpl; [reflexivity |].
  destruct (Text.is_space c) eqn:Hc; [exact IH | simpl; exact Hc].
Qed.

Lemma rstrip_cons c s :
  Text.rstrip (String c s)
  = if (Text.is_space c && bool_decide (Text.rstrip s = ""))%bool
    then "" else String c (Text.rstrip s).
Proof.
  simpl. destruct (Text.rstrip s) eqn:Hr; simpl.
  - destruct (Text.is_space c); reflexivity.
  - rewrite andb_false_r. reflexivity.
Qed.

Lemma rstrip_last s : Text.last_is_space (Text.rstrip s) = false.
Proof.
  induction s as [| c s IH]; [reflexivity |].
  rewrite rstrip_cons.
  destruct (Text.is_space c) eqn:Hc; simpl.
  - destruct (Text.rstrip s) eqn:Hr; simpl; [reflexivity | exact IH].
  - destruct (Text.rstrip s) eqn:Hr; simpl; [exact Hc | exact IH].
Qed.

Lemma rstrip_first s :
  Text.first_is_space s = false -> Text.first_is_space (Text.rstrip s) = false.
Proof.
  destruct s as [| c s]; [reflexivity |]. simpl Text.first_is_space at 1.
  intros Hc. rewrite rstrip_cons, Hc. simpl. exact Hc.
Qed.

Lemma strip_trimmed s : Text.trimmed (Text.strip s) = true.
Proof.
  unfold Text.trimmed, Text.strip.
  rewrite (rstrip_first _ (lstrip_first s)), rstrip_last. reflexivity.
Qed.






End Titles.

(** ** Completion times *)

Section Completion.
Import Agent Backend Backend.Chat Backend.Service.

Lemma get_by_id_Some db i t :
  TaskRepository.get_by_id db i = Some t -> t ∈ tasks db /\ id t = i.
Proof.
  unfold TaskRepository.get_by_id. intros H.
  apply find_some in H as [Hin Hid].
  apply bool_decide_eq_true in Hid. split; [by apply list_elem_of_In | exact Hid].
Qed.

Lemma descends_kept st mc cr old t : t ∈ old -> descends st mc cr old t.
Proof. intros Hin. left. exists t. auto 10. Qed.

Lemma update_rows db t row :
  row ∈ tasks (fst (TaskRepository.update db t)) ->
  row ∈ tasks db \/ row = t.
Proof.
  simpl. intros H. apply list_elem_of_fmap in H as (r0 & -> & Hr0).
  destruct (bool_decide (id r0 = id t)); auto.
Qed.

Lemma delete_rows db i row :
  row ∈ tasks (fst (TaskRepository.delete db i)) -> row ∈ tasks db.
Proof.
  unfold TaskRepository.delete.
  destruct (TaskRepository.get_by_id db i); simpl; [| auto].
  intros H. apply list_elem_of_filter in H as [_ H]. exact H.
Qed.

(** A row rewritten in title or description descends from the row read. *)
Lemma descends_edited st mc cr db i task t' :
  TaskRepository.get_by_id db i = Some task ->
  id t' = id task -> created_at t' = created_at task ->
  completed_at t' = completed_at task -> status t' = status task ->
  descends st mc cr (tasks db) t'.
Proof.
  intros Hg Hid Hc Hd Hs. apply get_by_id_Some in Hg as [Hin _].
  left. exists task. auto 10.
Qed.

Lemma descends_completed st (mc : Z -> Prop) cr db i task :
  TaskRepository.get_by_id db i = Some task -> mc i ->
  descends st mc cr (tasks db) (mark_complete st task).
Proof.
  intros Hg Hm. apply get_by_id_Some in Hg as [Hin Hid].
  left. exists task. simpl. rewrite Hid. auto 10.
Qed.

(** The tools, one by one. *)
Lemma create_tool_descends now db ttl d (mc : Z -> Prop) (cr : Prop) row :
  cr ->
  row ∈ tasks (fst (MCPTaskTools.create_task now db ttl d)) ->
  descends now mc cr (tasks db) row.
Proof.
  intros Hcr. simpl. intros H. apply elem_of_app in H as [H | H].
  - by apply descends_kept.
  - apply list_elem_of_singleton in H as ->. right. auto.
Qed.

Lemma update_tool_descends now db i ttl d mc cr row :
  row ∈ tasks (fst (MCPTaskTools.update_task db i ttl d)) ->
  descends now mc cr (tasks db) row.
Proof.
  unfold MCPTaskTools.update_task.
  destruct (TaskRepository.get_by_id db i) as [task |] eqn:Hg;
    [| apply descends_kept].
  intros H. apply update_rows in H as [H | ->]; [by apply descends_kept |].
  apply (descends_edited _ _ _ _ _ _ _ Hg);
    destruct ttl as [s1 |]; destruct d as [s2 |];
    repeat (destruct (decide _)); reflexivity.
Qed.

Lemma delete_tool_descends now db i mc cr row :
  row ∈ tasks (fst (MCPTaskTools.delete_task db i)) ->
  descends now mc cr (tasks db) row.
Proof.
  unfold MCPTaskTools.delete_task.
  destruct (TaskRepository.get_by_id db i); simpl fst; intros H;
    [apply delete_rows in H |]; by apply descends_kept.
Qed.

Lemma complete_tool_descends now db i (mc : Z -> Prop) cr row :
  mc i ->
  row ∈ tasks (fst (MCPTaskTools.complete_task now db i)) ->
  descends now mc cr (tasks db) row.
Proof.
  intros Hm. unfold MCPTaskTools.complete_task.
  destruct (TaskRepository.get_by_id db i) as [task |] eqn:Hg;
    [| apply descends_kept].
  intros H. apply update_rows in H as [H | ->]; [by apply descends_kept |].
  by apply (descends_completed _ _ _ _ _ _ Hg).
Qed.

(** The chain of intents changes the task table through one tool at most. *)
Lemma handle_intent_descends now db msg intent data text db' l row :
  handle_intent now db msg intent data text = inr (db', l) ->
  row ∈ tasks db' ->
  descends now
    (fun i => intent = "complete_task" /\ get_int data "task_id" = Some i)
    (intent = "create_task") (tasks db) row.
Proof.
  unfold handle_intent. intros H Hrow.
  repeat (destruct (decide (intent = _)) as [-> | ?]).
  - injection H as <- _.
    apply (create_tool_descends now db (get_str data "title" "New Task")
             (get_opt_str data "description")); [reflexivity | exact Hrow].
  - injection H as <- _. by apply descends_kept.
  - injection H as <- _. by apply descends_kept.
  - destruct (get_int data "task_id") as [i |]; [| discriminate H].
    injection H as H. unfold on_delete in H.
    destruct (confirmed msg).
    + destruct (MCPTaskTools.delete_task db i) as [dbd res] eqn:Hd.
      assert (db' = dbd) as -> by (destruct res; congruence).
      apply (delete_tool_descends now db i). rewrite Hd. exact Hrow.
    + destruct (TaskRepository.get_by_id db i); injection H as <- _;
        by apply descends_kept.
  - destruct (get_int data "task_id") as [i |] eqn:Hi; [| discriminate H].
    destruct (MCPTaskTools.complete_task now db i) as [dbc res] eqn:Hc.
    assert (db' = dbc) as -> by (destruct res; congruence).
    apply (complete_tool_descends now db i); [by split |].
    rewrite Hc. exact Hrow.
  - destruct (get_int data "task_id") as [i |]; [| discriminate H].
    destruct (MCPTaskTools.update_task db i (get_opt_str data "new_title") None)
      as [dbu res] eqn:Hu.
    assert (db' = dbu) as -> by (destruct res; congruence).
    apply (update_tool_descends now db i (get_opt_str data "new_title") None).
    rewrite Hu. exact Hrow.
  - injection H as <- _. by apply descends_kept.
  - injection H as <- _. by apply descends_kept.
  - injection H as <- _. by apply descends_kept.
Qed.

Lemma descends_weaken st (mc mc' : Z -> Prop) (cr cr' : Prop) old row :
  (forall i, mc i -> mc' i) -> (cr -> cr') ->
  descends st mc cr old row -> descends st mc' cr' old row.
Proof.
  intros Hm Hc [(t & Hin & Hid & Hca & [Hsame | (Hmc & Hs & Hd)]) | (Hcr & H)].
  - left. exists t. auto 10.
  - left. exists t. split; [exact Hin |]. split; [exact Hid |].
    split; [exact Hca |]. right. auto.
  - right. auto.
Qed.

(** A chat turn. *)
Lemma chat_descends a clk db body row :
  row ∈ tasks (fst (chat a clk db body)) ->
  descends (t_tool clk) (completes (ChatTurn a clk body))
    (creates (ChatTurn a clk body)) (tasks db) row.
Proof.
  unfold chat.
  destruct (valid_ChatRequest body); [| apply descends_kept].
  unfold try_body.
  pose proof (get_or_create_tasks db (req_session_id body) (t_conversation clk))
    as Ht1.
  destruct (ConversationRepository.get_or_create db (req_session_id body)
              (t_conversation clk)) as [db1 conversation].
  simpl in Ht1.
  destruct (MessageRepository.add db1 (conv_id conversation) "user"
              (message body) None (t_user clk)) as [db2 m] eqn:Hadd.
  assert (Ht2 : tasks db2 = tasks db).
  { rewrite <- Ht1. replace db2 with (fst (db2, m)) by reflexivity.
    rewrite <- Hadd. reflexivity. }
  destruct (_parse_intent_rule_based (message body)) as [intent data] eqn:Hp.
  destruct (process_message_parse a _ _ _ Hp) as [[e He] | (r & Hr & Hi & Hd)].
  - rewrite He. simpl. rewrite Ht2. apply descends_kept.
  - rewrite Hr, Hi, Hd.
    destruct (handle_intent (t_tool clk) db2 (message body) intent data
                (r_response r)) as [e | [db3 l]] eqn:Hh.
    + simpl. rewrite Ht2. apply descends_kept.
    + simpl. intros Hrow. rewrite <- Ht2.
      apply (descends_weaken _ _ _ _ _ _ _)
        with (3 := handle_intent_descends _ _ _ _ _ _ _ _ _ Hh Hrow).
      * intros i [-> Hg]. simpl. rewrite Hp. eauto.
      * intros ->. simpl. rewrite Hp. reflexivity.
Qed.

(** Every request: each row of the table it leaves behind descends from the
    table it found. *)
Lemma serve_descends db e row :
  row ∈ tasks (serve db e) ->
  descends (stamp e) (completes (snd e)) (creates (snd e)) (tasks db) row.
Proof.
  destruct e as [now r]. unfold serve, stamp.
  destruct r as [| b | i | i b | i | i | a clk b | sid]; simpl snd; simpl fst;
    try apply descends_kept.
  - unfold Tasks.create_task.
    destruct (valid_TaskCreate b); [| apply descends_kept].
    simpl. intros H. apply elem_of_app in H as [H | H].
    + by apply descends_kept.
    + apply list_elem_of_singleton in H as ->. right. simpl. auto.
  - unfold Tasks.get_task.
    destruct (TaskRepository.get_by_id db i); apply descends_kept.
  - unfold Tasks.update_task.
    destruct (valid_TaskUpdate b); [| apply descends_kept].
    destruct (TaskRepository.get_by_id db i) as [task |] eqn:Hg;
      [| apply descends_kept].
    destruct (tu_title b) as [[s |] |]; try apply descends_kept;
      intros H; apply update_rows in H as [H | ->];
      try (by apply descends_kept);
      apply (descends_edited _ _ _ _ _ _ _ Hg);
      destruct (tu_description b); reflexivity.
  - unfold Tasks.delete_task.
    destruct (TaskRepository.get_by_id db i); [| apply descends_kept].
    simpl fst. intros H. apply delete_rows in H. by apply descends_kept.
  - unfold Tasks.complete_task.
    destruct (TaskRepository.get_by_id db i) as [task |] eqn:Hg;
      [| apply descends_kept].
    intros H. apply update_rows in H as [H | ->]; [by apply descends_kept |].
    by apply (descends_completed _ _ _ _ _ _ Hg).
  - apply chat_descends.
Qed.





(** The same for the handlers of the command-line program. *)

Lemma cli_descends_kept now c (old : gmap Z Domain.Task) k t :
  old !! k = Some t -> Domain.descends now c old k t.
Proof. intros H. left. exists t. auto 10. Qed.

Lemma write_back_lookup (r : Domain.repository) i (t : Domain.Task) :
  Domain.id t = i ->
  Domain._tasks r !! i <> None ->
  exists r2,
    Domain.update (Domain.mutate r i t) t = inr (r2, t)
    /\ Domain._tasks r2 = <[i := t]> (Domain._tasks r)
    /\ Domain._next_id r2 = Domain._next_id r.
Proof.
  intros Hid Hsome. unfold Domain.update, Domain.mutate. simpl.
  rewrite Hid, lookup_insert_eq. eexists. split; [reflexivity |].
  simpl. split; [apply insert_insert_eq | reflexivity].
Qed.

Lemma cli_get_by_id_Some r i t :
  Domain.get_by_id r i = inr (Some t) -> Domain._tasks r !! i = Some t.
Proof.
  unfold Domain.get_by_id. destruct (decide (i <= 0)); [discriminate |].
  congruence.
Qed.

Lemma call_descends r e k t' :
  Domain.well_keyed r ->
  Domain._tasks (Domain.call r e) !! k = Some t' ->
  Domain.descends (fst e) (snd e) (Domain._tasks r) k t'
  /\ Domain.id t' = k.
Proof.
  intros Hwf. destruct e as [now c]. unfold Domain.call. simpl fst; simpl snd.
  assert (Hkept : forall t, Domain._tasks r !! k = Some t ->
            Domain.descends now c (Domain._tasks r) k t /\ Domain.id t = k).
  { intros t Ht. split; [by apply cli_descends_kept | by apply Hwf]. }
  destruct c as [ttl d | | i ttl d | i | i]; simpl.
  - unfold Domain.handle_add.
    destruct (Domain.new_task now ttl d) as [e | task] eqn:Hn; simpl;
      [apply Hkept |].
    intros H. apply lookup_insert_Some in H as [[<- <-] | [_ H]];
      [| by apply Hkept].
    unfold Domain.new_task in Hn.
    destruct (Domain._validate_title ttl); [discriminate Hn |].
    destruct (Domain._normalize_description d); [discriminate Hn |].
    injection Hn as <-. split; [| reflexivity]. right. simpl. eauto 10.
  - apply Hkept.
  - unfold Domain.handle_update.
    destruct (Domain.get_by_id r i) as [e | [existing |]] eqn:Hg; simpl;
      try apply Hkept.
    apply cli_get_by_id_Some in Hg.
    set (edited := match d with
                   | Some s0 => Domain.set_description s0 _
                   | None => _
                   end).
    assert (He : Domain.id edited = i
                 /\ Domain.created_at edited = Domain.created_at existing
                 /\ Domain.completed_at edited = Domain.completed_at existing
                 /\ Domain.status edited = Domain.status existing).
    { subst edited. destruct ttl, d; simpl; repeat split; by apply Hwf. }
    destruct He as (Hid & Hca & Hco & Hst).
    destruct (write_back_lookup r i edited Hid) as (r2 & -> & Ht2 & _);
      [congruence |].
    simpl. rewrite Ht2. intros H.
    apply lookup_insert_Some in H as [[<- <-] | [_ H]]; [| by apply Hkept].
    split; [| exact Hid]. left. exists existing. auto 10.
  - unfold Domain.handle_delete, Domain.delete.
    destruct (decide (i <= 0)); simpl; [apply Hkept |].
    destruct (Domain._tasks r !! i) eqn:Hl; simpl; [| apply Hkept].
    intros H. apply lookup_delete_Some in H as [_ H]. by apply Hkept.
  - unfold Domain.handle_complete.
    destruct (Domain.get_by_id r i) as [e | [task |]] eqn:Hg; simpl;
      try apply Hkept.
    apply cli_get_by_id_Some in Hg.
    assert (Hid : Domain.id (Domain.mark_complete now task) = i)
      by (simpl; by apply Hwf).
    destruct (write_back_lookup r i _ Hid) as (r2 & -> & Ht2 & _);
      [congruence |].
    simpl. rewrite Ht2. intros H.
    apply lookup_insert_Some in H as [[<- <-] | [_ H]]; [| by apply Hkept].
    split; [| exact Hid]. left. exists task. simpl. auto 10.
Qed.

Lemma call_well_keyed r e : Domain.well_keyed r -> Domain.well_keyed (Domain.call r e).
Proof. intros Hwf k t H. exact (proj2 (call_descends r e k t Hwf H)). Qed.





(** A run of the two programs: create at 5, rename at 6, complete at 9. *)
Lemma create_rename_complete :
  tasks (Service.run
           [(5, CreateTask {| tc_title := "Original"; tc_description := None |});
            (6, UpdateTask 1 {| tu_title := Some (Some "Updated");
                                tu_description := None |});
            (9, CompleteTask 1)])
  = [{| id := 1; title := "Updated"; description := None; status := COMPLETED;
        created_at := 5; completed_at := Some 9 |}]
  /\ Domain._tasks (Domain.session
                      [(5, Domain.Add "Original" None);
                       (6, Domain.Update 1 (Some "Updated") None);
                       (9, Domain.Complete 1)]) !! 1
     = Some {| Domain.id := 1; Domain.title := "Updated";
               Domain.description := None; Domain.status := Domain.COMPLETED;
               Domain.created_at := 5; Domain.completed_at := Some 9 |}.
Proof. split; vm_compute; reflexivity. Qed.

End Completion.

(* ===================================================================== *)
(** * Further properties of the code                                      *)
(* ===================================================================== *)

(** ** The in-memory repository and the handlers on it *)

Section Repository.
Import Domain.

Lemma add_shape r t :
  add r t
  = ({| _tasks := <[_next_id r := set_id (_next_id r) t]> (_tasks r);
        _next_id := _next_id r + 1 |}, set_id (_next_id r) t).
Proof. reflexivity. Qed.

(** One handler call: the keys it leaves are keys it found or the id it
    handed out, and the counter does not go back. *)
Lemma call_keys r e :
  well_keyed r ->
  _next_id r <= _next_id (call r e)
  /\ forall k, is_Some (_tasks (call r e) !! k) ->
       is_Some (_tasks r !! k)
       \/ (k = _next_id r /\ _next_id (call r e) = _next_id r + 1).
Proof.
  intros Hwf. destruct e as [now c]. unfold call. simpl fst; simpl snd.
  destruct c as [ttl d | | i ttl d | i | i]; simpl.
  - unfold handle_add. destruct (new_task now ttl d) as [e | task]; simpl.
    + split; [lia | auto].
    + split; [lia |]. intros k Hk.
      destruct (decide (k = _next_id r)) as [-> | Hne]; [auto |].
      rewrite lookup_insert_ne in Hk by congruence. auto.
  - split; [lia | auto].
  - unfold handle_update.
    destruct (get_by_id r i) as [e | [existing |]] eqn:Hg; simpl;
      try (split; [lia | auto]).
    apply cli_get_by_id_Some in Hg.
    set (edited := match d with
                   | Some s0 => set_description s0 _
                   | None => _
                   end).
    assert (Hid : id edited = i).
    { subst edited. destruct ttl, d; simpl; by apply Hwf. }
    destruct (write_back_lookup r i edited Hid) as (r2 & -> & Ht2 & Hn2);
      [congruence |].
    simpl. rewrite Ht2, Hn2. split; [lia |]. intros k Hk.
    destruct (decide (k = i)) as [-> | Hne]; [left; eauto |].
    rewrite lookup_insert_ne in Hk by congruence. auto.
  - unfold handle_delete, delete.
    destruct (decide (i <= 0)); simpl; [split; [lia | auto] |].
    destruct (_tasks r !! i) eqn:Hl; simpl; [| split; [lia | auto]].
    split; [lia |]. intros k Hk. left.
    destruct Hk as [t0 Hk]. apply lookup_delete_Some in Hk as [_ Hk]. eauto.
  - unfold handle_complete.
    destruct (get_by_id r i) as [e | [task |]] eqn:Hg; simpl;
      try (split; [lia | auto]).
    apply cli_get_by_id_Some in Hg.
    assert (Hid : id (mark_complete now task) = i) by (simpl; by apply Hwf).
    destruct (write_back_lookup r i _ Hid) as (r2 & -> & Ht2 & Hn2);
      [congruence |].
    simpl. rewrite Ht2, Hn2. split; [lia |]. intros k Hk.
    destruct (decide (k = i)) as [-> | Hne]; [left; eauto |].
    rewrite lookup_insert_ne in Hk by congruence. auto.
Qed.

Lemma session_invariant calls : forall r,
  well_keyed r -> 0 < _next_id r ->
  (forall k, is_Some (_tasks r !! k) -> 0 < k < _next_id r) ->
  well_keyed (fold_left call calls r)
  /\ 0 < _next_id (fold_left call calls r)
  /\ (forall k, is_Some (_tasks (fold_left call calls r) !! k) ->
        0 < k < _next_id (fold_left call calls r)).
Proof.
  induction calls as [| e calls IH]; intros r Hwf Hn Hb; simpl; [auto |].
  destruct (call_keys r e Hwf) as [Hmono Hkeys].
  apply IH; [by apply call_well_keyed | lia |].
  intros k Hk. destruct (Hkeys k Hk) as [Hold | [-> ->]].
  - specialize (Hb k Hold). lia.
  - lia.
Qed.

Lemma session_repository_invariant calls :
  well_keyed (session calls)
  /\ 0 < _next_id (session calls)
  /\ (forall k, is_Some (_tasks (session calls) !! k) ->
        0 < k < _next_id (session calls)).
Proof.
  apply (session_invariant calls empty_repository).
  - intros k t H. simpl in H. rewrite lookup_empty in H. discriminate.
  - simpl. lia.
  - intros k [t H]. simpl in H. rewrite lookup_empty in H. discriminate.
Qed.

(** X1. In every session of handler calls every task sits under its own id,
    ids are positive and below the counter, and an add that succeeds files
    the new task under the counter's value, an id that is free, touches no
    other task and moves the counter up by one: an id is never handed out
    twice, also after a delete. *)
Theorem session_ids_are_fresh calls :
  well_keyed (session calls)
  /\ (forall k, is_Some (_tasks (session calls) !! k) ->
        0 < k < _next_id (session calls))
  /\ forall now ttl d r',
       handle_add now (session calls) ttl d = (r', None) ->
       _tasks (session calls) !! _next_id (session calls) = None
       /\ _next_id r' = _next_id (session calls) + 1
       /\ exists task,
            _tasks r' = <[_next_id (session calls) := task]> (_tasks (session calls))
            /\ id task = _next_id (session calls)
            /\ status task = PENDING /\ created_at task = now.
Proof.
  destruct (session_repository_invariant calls) as (Hwf & Hn & Hb).
  split; [exact Hwf |]. split; [exact Hb |].
  intros now ttl d r' H. unfold handle_add in H.
  destruct (new_task now ttl d) as [e | task] eqn:Hnew; [discriminate H |].
  injection H as <-. split.
  - destruct (_tasks (session calls) !! _next_id (session calls)) eqn:Hl;
      [| reflexivity].
    specialize (Hb _ (mk_is_Some _ _ Hl)). lia.
  - split; [reflexivity |]. eexists. split; [reflexivity |].
    unfold new_task in Hnew.
    destruct (_validate_title ttl); [discriminate Hnew |].
    destruct (_normalize_description d); [discriminate Hnew |].
    injection Hnew as <-. repeat split.
Qed.

(** X2. [delete] answers for every id: for an id that is zero or negative it
    raises ValueError; otherwise it says whether the id was there, and
    afterwards [get_by_id] finds nothing under it while every other id and
    the counter are as before. *)
Theorem delete_then_get_finds_nothing r i :
  match delete r i with
  | inl e =>
      i <= 0 /\ e = ValueError ("Invalid task ID: " +:+ Text.str_of_int i)
  | inr (r', found) =>
      0 < i
      /\ (found = true <-> is_Some (_tasks r !! i))
      /\ get_by_id r' i = inr None
      /\ (forall j, j <> i -> _tasks r' !! j = _tasks r !! j)
      /\ _next_id r' = _next_id r
  end.
Proof.
  unfold delete. destruct (decide (i <= 0)); [auto |].
  assert (Hg : forall r', get_by_id r' i = inr (_tasks r' !! i)).
  { intros r'. unfold get_by_id. destruct (decide (i <= 0)); [lia | reflexivity]. }
  destruct (_tasks r !! i) eqn:Hl.
  - split; [lia |]. split; [split; eauto |]. rewrite Hg. simpl.
    rewrite lookup_delete_eq. repeat split.
    intros j Hj. by rewrite lookup_delete_ne.
  - split; [lia |]. split.
    + split; [discriminate | intros [t Ht]; discriminate Ht].
    + rewrite Hg, Hl. auto.
Qed.

(** X3. [update] only replaces: for a task whose id is not stored it raises
    TaskNotFoundError, and otherwise it files the task under its id and
    leaves every other id and the counter as they were. *)
Theorem update_replaces_one_task r t :
  match update r t with
  | inl e => _tasks r !! id t = None /\ e = TaskNotFoundError (id t)
  | inr (r', t') =>
      is_Some (_tasks r !! id t) /\ t' = t
      /\ _tasks r' !! id t = Some t
      /\ (forall j, j <> id t -> _tasks r' !! j = _tasks r !! j)
      /\ _next_id r' = _next_id r
  end.
Proof.
  unfold update. destruct (_tasks r !! id t) eqn:Hl; [| auto].
  split; [eauto |]. split; [reflexivity |]. simpl.
  rewrite lookup_insert_eq. repeat split.
  intros j Hj. by rewrite lookup_insert_ne.
Qed.

Lemma omap_lookup_ids (m : gmap Z Task) (ks : list Z) :
  (forall k, k ∈ ks -> exists t, m !! k = Some t /\ id t = k) ->
  map id (omap (fun k => m !! k) ks) = ks.
Proof.
  induction ks as [| k ks IH]; intros H; [reflexivity |].
  destruct (H k) as (t & Ht & Hid); [by left |].
  simpl. rewrite Ht. simpl. rewrite Hid. f_equal.
  apply IH. intros k' Hk'. apply H. by right.
Qed.

Lemma get_all_ids r :
  well_keyed r ->
  map id (get_all r) = merge_sort Z.le (elements (dom (_tasks r))).
Proof.
  intros Hwf. unfold get_all. apply omap_lookup_ids. intros k Hk.
  rewrite merge_sort_Permutation in Hk.
  apply elem_of_elements, elem_of_dom in Hk as [t Ht].
  exists t. split; [exact Ht | by apply Hwf].
Qed.

Lemma get_all_elem r t :
  t ∈ get_all r <-> exists k, _tasks r !! k = Some t.
Proof.
  unfold get_all. rewrite list_elem_of_omap. split.
  - intros (k & _ & Hk). eauto.
  - intros (k & Hk). exists k. split; [| exact Hk].
    rewrite merge_sort_Permutation.
    apply elem_of_elements, elem_of_dom. eauto.
Qed.

(** X4. In every session [get_all] lists each stored task exactly once, by
    ascending id. *)
Theorem get_all_is_in_id_order calls :
  StronglySorted Z.lt (map id (get_all (session calls)))
  /\ (forall t, t ∈ get_all (session calls)
        <-> exists k, _tasks (session calls) !! k = Some t)
  /\ length (get_all (session calls)) = size (_tasks (session calls)).
Proof.
  destruct (session_repository_invariant calls) as [Hwf _].
  pose proof (get_all_ids _ Hwf) as Hids.
  assert (Hnd : NoDup (map id (get_all (session calls)))).
  { rewrite Hids, merge_sort_Permutation. apply NoDup_elements. }
  assert (Hs : StronglySorted Z.le (map id (get_all (session calls)))).
  { rewrite Hids. apply StronglySorted_merge_sort; apply _. }
  split; [| split].
  - clear Hids. induction (map id (get_all (session calls))) as [| x l IH];
      [constructor |].
    apply StronglySorted_cons in Hs as [Hx Hs].
    apply NoDup_cons in Hnd as [Hnx Hnd].
    constructor; [by apply IH |].
    rewrite Forall_forall in Hx |- *. intros y Hy.
    specialize (Hx y Hy). assert (x <> y) by (intros ->; contradiction). lia.
  - apply get_all_elem.
  - rewrite <- (length_map id), Hids, (Permutation_length (merge_sort_Permutation _ _)).
    rewrite <- size_dom. reflexivity.
Qed.

(** X5. [handle_update] writes the new title and description into the stored
    task as they are handed in: nothing is stripped and neither emptiness
    nor length is checked, unlike the constructor that [handle_add] goes
    through.  Id, status and both timestamps stay. *)
Theorem handle_update_stores_fields_unchecked r i existing ttl d :
  0 < i ->
  _tasks r !! i = Some existing ->
  id existing = i ->
  exists r' stored,
    handle_update r i ttl d = (r', None)
    /\ _tasks r' = <[i := stored]> (_tasks r)
    /\ title stored = default (title existing) ttl
    /\ description stored = match d with
                            | Some s => Some s
                            | None => description existing
                            end
    /\ id stored = i /\ status stored = status existing
    /\ created_at stored = created_at existing
    /\ completed_at stored = completed_at existing.
Proof.
  intros Hi Hl Hid. unfold handle_update, get_by_id.
  destruct (decide (i <= 0)); [lia |]. rewrite Hl.
  set (edited := match d with
                 | Some s0 => set_description s0 _
                 | None => _
                 end).
  assert (He : id edited = i) by (subst edited; destruct ttl, d; exact Hid).
  destruct (write_back_lookup r i edited He) as (r2 & -> & Ht2 & _);
    [congruence |].
  exists r2, edited. split; [reflexivity |]. split; [exact Ht2 |].
  subst edited. destruct ttl, d; simpl; repeat split; assumption.
Qed.

Lemma handle_update_stores_fields_unchecked_witness :
  exists r' stored,
    handle_update (session [(5, Add "Original" None)]) 1 (Some "   ") (Some "")
    = (r', None)
    /\ _tasks r' !! 1 = Some stored
    /\ title stored = "   " /\ description stored = Some "".
Proof.
  destruct (handle_update_stores_fields_unchecked
              (session [(5, Add "Original" None)]) 1
              {| id := 1; title := "Original"; description := None;
                 status := PENDING; created_at := 5; completed_at := None |}
              (Some "   ") (Some ""))
    as (r' & stored & Hu & Ht & Htitle & Hdesc & _);
    [lia | reflexivity | reflexivity |].
  exists r', stored. split; [exact Hu |]. split.
  - rewrite Ht. apply lookup_insert_eq.
  - split; [exact Htitle | exact Hdesc].
Defined.


(** X7. Through [main] a numbered command never succeeds: every process
    starts on an empty repository, so update, delete and complete end with
    exit status 1 whatever the id, in the ValueError branch for an id that is
    zero or negative and in the not-found branch otherwise. *)
Theorem numbered_commands_always_exit_1 now c i :
  task_id_of c = Some i ->
  exit_code (run now (Namespace (Some c))) = 1
  /\ ended (run now (Namespace (Some c)))
     = if decide (i <= 0) then ExceptValueError else ExceptTaskNotFound.
Proof.
  intros Hc. unfold run. destruct (decide (i <= 0)) as [Hi | Hi].
  - rewrite (nonpositive_id_is_a_value_error now c i Hc Hi). auto.
  - rewrite (fresh_repository_finds_nothing now c i Hc); [auto | lia].
Qed.

Lemma numbered_commands_always_exit_1_witness :
  task_id_of (Update 1 (Some "Updated") None) = Some 1
  /\ main 0 ["update"; "1"; "--title"; "Updated"]
     = Some (run 0 (Namespace (Some (Update 1 (Some "Updated") None))))
  /\ exit_code (run 0 (Namespace (Some (Update 1 (Some "Updated") None)))) = 1.
Proof.
  split; [reflexivity |]. split; [reflexivity |].
  exact (proj1 (numbered_commands_always_exit_1 0
                  (Update 1 (Some "Updated") None) 1 eq_refl)).
Defined.

End Repository.

(** ** The task table behind the web service *)

Section TaskTable.
Import Agent Backend Backend.Chat Backend.Service Steps.

Lemma get_by_id_after_delete db i j :
  TaskRepository.get_by_id (fst (TaskRepository.delete db i)) j
  = if decide (j = i) then None else TaskRepository.get_by_id db j.
Proof.
  unfold TaskRepository.delete.
  destruct (TaskRepository.get_by_id db i) as [t |] eqn:Hg; simpl.
  - unfold TaskRepository.get_by_id in *. simpl. clear Hg.
    induction (tasks db) as [| r rows IH]; simpl.
    + destruct (decide (j = i)); reflexivity.
    + rewrite filter_cons. destruct (decide (id r <> i)) as [Hne | Heq]; simpl.
      * destruct (bool_decide_reflect (id r = j)) as [Hj | Hj].
        -- destruct (decide (j = i)); [congruence | reflexivity].
        -- exact IH.
      * apply dec_stable in Heq. rewrite IH.
        destruct (decide (j = i)); [reflexivity |].
        rewrite bool_decide_eq_false_2 by congruence. reflexivity.
  - destruct (decide (j = i)) as [-> |]; [exact Hg | reflexivity].
Qed.

Lemma get_by_id_after_update db t j :
  TaskRepository.get_by_id (fst (TaskRepository.update db t)) j
  = if decide (j = id t)
    then match TaskRepository.get_by_id db j with
         | Some _ => Some t
         | None => None
         end
    else TaskRepository.get_by_id db j.
Proof.
  unfold TaskRepository.get_by_id. simpl.
  induction (tasks db) as [| r rows IH]; simpl.
  - destruct (decide (j = id t)); reflexivity.
  - destruct (bool_decide_reflect (id r = id t)) as [Hr | Hr].
    + destruct (decide (j = id t)) as [-> | Hj].
      * rewrite (bool_decide_eq_true_2 _ eq_refl).
        rewrite (bool_decide_eq_true_2 _ Hr). reflexivity.
      * rewrite !bool_decide_eq_false_2 by congruence.
        rewrite IH. destruct (decide (j = id t)); [contradiction | reflexivity].
    + destruct (bool_decide_reflect (id r = j)) as [Hj | Hj].
      * destruct (decide (j = id t)); [congruence | reflexivity].
      * exact IH.
Qed.

Lemma get_by_id_after_add db ttl d now j :
  (forall t, t ∈ tasks db -> id t <> task_seq db) ->
  TaskRepository.get_by_id (fst (TaskRepository.add db ttl d now)) j
  = if decide (j = task_seq db)
    then Some (snd (TaskRepository.add db ttl d now))
    else TaskRepository.get_by_id db j.
Proof.
  intros Hfresh. unfold TaskRepository.get_by_id. simpl.
  induction (tasks db) as [| r rows IH]; simpl.
  - destruct (decide (j = task_seq db)) as [-> | Hj].
    + rewrite (bool_decide_eq_true_2 _ eq_refl). reflexivity.
    + rewrite bool_decide_eq_false_2 by congruence. reflexivity.
  - destruct (bool_decide_reflect (id r = j)) as [Hj | Hj].
    + destruct (decide (j = task_seq db)) as [-> |]; [| reflexivity].
      exfalso. apply (Hfresh r); [by left | exact Hj].
    + apply IH. intros t Ht. apply Hfresh. by right.
Qed.

Lemma shape_same (old new : database) :
  tasks new = tasks old -> task_seq new = task_seq old -> shape old new.
Proof. intros Ht Hs. left. by rewrite Ht. Qed.

Lemma update_shape db t : shape db (fst (TaskRepository.update db t)).
Proof.
  left. simpl. split; [| reflexivity].
  rewrite map_map. apply map_ext_in. intros r _.
  destruct (bool_decide_reflect (id r = id t)); congruence.
Qed.

Lemma delete_shape db i : shape db (fst (TaskRepository.delete db i)).
Proof.
  unfold TaskRepository.delete.
  destruct (TaskRepository.get_by_id db i); simpl.
  - right. right. exists i. auto.
  - by apply shape_same.
Qed.

Lemma add_shape_db db ttl d now : shape db (fst (TaskRepository.add db ttl d now)).
Proof. right. left. eexists. simpl. repeat split. Qed.

Lemma complete_tool_shape now db i :
  shape db (fst (MCPTaskTools.complete_task now db i)).
Proof.
  unfold MCPTaskTools.complete_task.
  destruct (TaskRepository.get_by_id db i) as [task |];
    [exact (update_shape db (mark_complete now task)) | by apply shape_same].
Qed.

Lemma update_tool_shape db i ttl d :
  shape db (fst (MCPTaskTools.update_task db i ttl d)).
Proof.
  unfold MCPTaskTools.update_task.
  destruct (TaskRepository.get_by_id db i) as [task |];
    [| by apply shape_same].
  match goal with
  | |- shape _ (fst (let '(_, _) := TaskRepository.update _ ?t in _)) =>
      exact (update_shape db t)
  end.
Qed.

Lemma delete_tool_shape db i : shape db (fst (MCPTaskTools.delete_task db i)).
Proof.
  unfold MCPTaskTools.delete_task.
  destruct (TaskRepository.get_by_id db i);
    [apply delete_shape | by apply shape_same].
Qed.

Lemma handle_intent_shape now db msg intent data text db' l :
  handle_intent now db msg intent data text = inr (db', l) -> shape db db'.
Proof.
  unfold handle_intent. intros H.
  repeat (destruct (decide (intent = _)) as [-> | ?]).
  - injection H as <- _. apply add_shape_db.
  - injection H as <- _. by apply shape_same.
  - injection H as <- _. by apply shape_same.
  - destruct (get_int data "task_id") as [i |]; [| discriminate H].
    injection H as H. unfold on_delete in H.
    destruct (confirmed msg).
    + destruct (MCPTaskTools.delete_task db i) as [dbd res] eqn:Hd.
      assert (db' = dbd) as -> by (destruct res; congruence).
      replace dbd with (fst (MCPTaskTools.delete_task db i)) by (by rewrite Hd).
      apply delete_tool_shape.
    + destruct (TaskRepository.get_by_id db i); injection H as <- _;
        by apply shape_same.
  - destruct (get_int data "task_id") as [i |]; [| discriminate H].
    destruct (MCPTaskTools.complete_task now db i) as [dbc res] eqn:Hc.
    assert (db' = dbc) as -> by (destruct res; congruence).
    replace dbc with (fst (MCPTaskTools.complete_task now db i))
      by (by rewrite Hc).
    apply complete_tool_shape.
  - destruct (get_int data "task_id") as [i |]; [| discriminate H].
    destruct (MCPTaskTools.update_task db i (get_opt_str data "new_title") None)
      as [dbu res] eqn:Hu.
    assert (db' = dbu) as -> by (destruct res; congruence).
    replace dbu with (fst (MCPTaskTools.update_task db i
                             (get_opt_str data "new_title") None))
      by (by rewrite Hu).
    apply update_tool_shape.
  - injection H as <- _. by apply shape_same.
  - injection H as <- _. by apply shape_same.
  - injection H as <- _. by apply shape_same.
Qed.

Lemma get_or_create_task_seq db sid now :
  task_seq (fst (ConversationRepository.get_or_create db sid now)) = task_seq db.
Proof.
  unfold ConversationRepository.get_or_create.
  destruct (ConversationRepository.get_by_session_id db sid); reflexivity.
Qed.

Lemma shape_from (old mid new : database) :
  tasks mid = tasks old -> task_seq mid = task_seq old ->
  shape mid new -> shape old new.
Proof. unfold shape. intros -> ->. auto. Qed.

Lemma chat_shape a clk db body : shape db (fst (chat a clk db body)).
Proof.
  unfold chat.
  destruct (valid_ChatRequest body); [| by apply shape_same].
  unfold try_body.
  pose proof (get_or_create_tasks db (req_session_id body) (t_conversation clk))
    as Ht1.
  pose proof (get_or_create_task_seq db (req_session_id body) (t_conversation clk))
    as Hs1.
  destruct (ConversationRepository.get_or_create db (req_session_id body)
              (t_conversation clk)) as [db1 conversation].
  simpl in Ht1, Hs1.
  destruct (MessageRepository.add db1 (conv_id conversation) "user"
              (message body) None (t_user clk)) as [db2 m] eqn:Hadd.
  assert (Ht2 : tasks db2 = tasks db).
  { rewrite <- Ht1. replace db2 with (fst (db2, m)) by reflexivity.
    rewrite <- Hadd. reflexivity. }
  assert (Hs2 : task_seq db2 = task_seq db).
  { rewrite <- Hs1. replace db2 with (fst (db2, m)) by reflexivity.
    rewrite <- Hadd. reflexivity. }
  destruct (process_message a (message body)) as [e | r].
  - simpl. by apply shape_same.
  - destruct (handle_intent (t_tool clk) db2 (message body) (r_intent r)
                (r_data r) (r_response r)) as [e | [db3 l]] eqn:Hh.
    + simpl. by apply shape_same.
    + simpl. apply handle_intent_shape in Hh.
      apply (shape_from db db2); [exact Ht2 | exact Hs2 |].
      destruct Hh as [[H1 H2] | [(t & H1 & H2 & H3) | (i & H1 & H2)]].
      * left. auto.
      * right. left. exists t. auto.
      * right. right. exists i. auto.
Qed.

Lemma serve_shape db e : shape db (serve db e).
Proof.
  destruct e as [now r]. unfold serve.
  destruct r as [| b | i | i b | i | i | a clk b | sid]; simpl snd; simpl fst;
    try (by apply shape_same).
  - unfold Tasks.create_task.
    destruct (valid_TaskCreate b); [apply add_shape_db | by apply shape_same].
  - unfold Tasks.get_task.
    destruct (TaskRepository.get_by_id db i); by apply shape_same.
  - unfold Tasks.update_task.
    destruct (valid_TaskUpdate b); [| by apply shape_same].
    destruct (TaskRepository.get_by_id db i); [| by apply shape_same].
    destruct (tu_title b) as [[s |] |]; try (by apply shape_same);
      match goal with
      | |- shape _ (fst (let '(_, _) := TaskRepository.update _ ?t in _)) =>
          exact (update_shape db t)
      end.
  - unfold Tasks.delete_task.
    destruct (TaskRepository.get_by_id db i) eqn:Hg; [| by apply shape_same].
    simpl fst. apply delete_shape.
  - unfold Tasks.complete_task.
    destruct (TaskRepository.get_by_id db i) as [task |];
      [| by apply shape_same].
    exact (update_shape db (mark_complete now task)).
  - apply chat_shape.
Qed.

Lemma shape_keeps_ids_fresh old new :
  shape old new ->
  NoDup (map id (tasks old)) ->
  (forall t, t ∈ tasks old -> 0 < id t < task_seq old) ->
  0 < task_seq old ->
  NoDup (map id (tasks new))
  /\ (forall t, t ∈ tasks new -> 0 < id t < task_seq new)
  /\ 0 < task_seq new.
Proof.
  intros [[H1 H2] | [(t & H1 & H2 & H3) | (i & H1 & H2)]] Hnd Hb Hs.
  - rewrite H1, H2. split; [exact Hnd |]. split; [| exact Hs].
    intros t Ht. apply (list_elem_of_fmap_2 id) in Ht.
    change (id <$> tasks new) with (map id (tasks new)) in Ht.
    rewrite H1 in Ht. apply list_elem_of_fmap in Ht as (t0 & -> & Ht0).
    by apply Hb.
  - rewrite H1, H3, map_app. simpl. split; [| split; [| lia]].
    + apply NoDup_app. split; [exact Hnd |]. split; [| apply NoDup_singleton].
      intros x Hx Hx'. apply list_elem_of_singleton in Hx'. subst x.
      apply list_elem_of_fmap in Hx as (t0 & Ht0 & Hin).
      specialize (Hb t0 Hin). lia.
    + intros t0 Ht0. apply elem_of_app in Ht0 as [Ht0 | Ht0].
      * specialize (Hb t0 Ht0). lia.
      * apply list_elem_of_singleton in Ht0. subst t0. lia.
  - rewrite H1, H2. split; [| split; [| exact Hs]].
    + clear H1. induction (tasks old) as [| r rows IH]; [constructor |].
      simpl in Hnd. apply NoDup_cons in Hnd as [Hr Hnd].
      rewrite filter_cons. destruct (decide (id r <> i)); simpl.
      * apply NoDup_cons. split.
        -- intros Hin. apply Hr.
           apply list_elem_of_fmap in Hin as (t0 & Ht0 & Hin).
           apply list_elem_of_filter in Hin as [_ Hin].
           apply list_elem_of_fmap. eauto.
        -- apply IH; [exact Hnd |]. intros t Ht. apply Hb. by right.
      * apply IH; [exact Hnd |]. intros t Ht. apply Hb. by right.
    + intros t Ht. apply list_elem_of_filter in Ht as [_ Ht]. by apply Hb.
Qed.

Lemma run_ids trace : forall db,
  NoDup (map id (tasks db)) ->
  (forall t, t ∈ tasks db -> 0 < id t < task_seq db) ->
  0 < task_seq db ->
  NoDup (map id (tasks (fold_left serve trace db)))
  /\ (forall t, t ∈ tasks (fold_left serve trace db) ->
        0 < id t < task_seq (fold_left serve trace db))
  /\ 0 < task_seq (fold_left serve trace db).
Proof.
  induction trace as [| e trace IH]; intros db Hnd Hb Hs; simpl; [auto |].
  destruct (shape_keeps_ids_fresh db (serve db e) (serve_shape db e) Hnd Hb Hs)
    as (Hnd' & Hb' & Hs').
  by apply IH.
Qed.

Lemma reachable_ids trace :
  NoDup (map id (tasks (Service.run trace)))
  /\ (forall t, t ∈ tasks (Service.run trace) ->
        0 < id t < task_seq (Service.run trace))
  /\ 0 < task_seq (Service.run trace).
Proof.
  apply run_ids; simpl.
  - constructor.
  - intros t Ht. by apply elem_of_nil in Ht.
  - lia.
Qed.

(** X8. In every database reached by a run of requests the task ids are
    pairwise distinct, positive and below the sequence; so a task the create
    endpoint accepts gets an id no stored task has, can be fetched under it
    at once, and leaves what every other id fetches as it was. *)
Theorem task_ids_are_unique_and_fresh trace :
  NoDup (map id (tasks (Service.run trace)))
  /\ (forall t, t ∈ tasks (Service.run trace) ->
        0 < id t < task_seq (Service.run trace))
  /\ forall now b,
       valid_TaskCreate b = true ->
       exists db' t,
         Tasks.create_task now (Service.run trace) b = (db', Reply 201 t)
         /\ id t = task_seq (Service.run trace)
         /\ Tasks.get_task db' (id t) = (db', Reply 200 t)
         /\ forall j, j <> id t ->
              TaskRepository.get_by_id db' j
              = TaskRepository.get_by_id (Service.run trace) j.
Proof.
  destruct (reachable_ids trace) as (Hnd & Hb & Hs).
  split; [exact Hnd |]. split; [exact Hb |].
  intros now b Hv. unfold Tasks.create_task. rewrite Hv.
  assert (Hfresh : forall t, t ∈ tasks (Service.run trace) ->
                     id t <> task_seq (Service.run trace)).
  { intros t Ht. specialize (Hb t Ht). lia. }
  pose proof (get_by_id_after_add (Service.run trace) (tc_title b)
                (tc_description b) now) as Hget.
  destruct (TaskRepository.add (Service.run trace) (tc_title b)
              (tc_description b) now) as [db' t] eqn:Hadd.
  assert (Hid : id t = task_seq (Service.run trace)).
  { unfold TaskRepository.add in Hadd. injection Hadd as _ <-. reflexivity. }
  exists db', t. split; [reflexivity |]. split; [exact Hid |].
  simpl in Hget. split.
  - unfold Tasks.get_task. rewrite (Hget (id t) Hfresh).
    destruct (decide (id t = task_seq (Service.run trace)));
      [reflexivity | contradiction].
  - intros j Hj. rewrite (Hget j Hfresh).
    destruct (decide (j = task_seq (Service.run trace))); [congruence | reflexivity].
Qed.

(** X9. The delete endpoint: for an id that fetches nothing it answers 404
    and leaves the database as it was; otherwise it answers 204, the id
    fetches 404 afterwards, every other id fetches what it fetched before,
    and the conversations and messages are untouched. *)
Theorem deleted_task_is_gone db i :
  match TaskRepository.get_by_id db i with
  | None => Tasks.delete_task db i = (db, not_found i)
  | Some _ =>
      exists db',
        Tasks.delete_task db i = (db', Reply 204 tt)
        /\ Tasks.get_task db' i = (db', not_found i)
        /\ (forall j, j <> i ->
             TaskRepository.get_by_id db' j = TaskRepository.get_by_id db j)
        /\ conversations db' = conversations db
        /\ messages db' = messages db
  end.
Proof.
  unfold Tasks.delete_task.
  destruct (TaskRepository.get_by_id db i) as [t |] eqn:Hg; [| reflexivity].
  eexists. split; [reflexivity |]. split; [| split].
  - unfold Tasks.get_task. rewrite get_by_id_after_delete.
    destruct (decide (i = i)); [reflexivity | contradiction].
  - intros j Hj. rewrite get_by_id_after_delete.
    destruct (decide (j = i)); [contradiction | reflexivity].
  - unfold TaskRepository.delete. rewrite Hg. split; reflexivity.
Qed.

(** X10. The update endpoint, for a body that passes validation and does not
    set the title to null, on a task that exists: it answers 200 with the
    task whose title and description are the ones sent (a description sent
    as null is cleared, a field not sent stays), whose id, status and two
    timestamps are as before; the id fetches that task afterwards and every
    other id fetches what it fetched before. *)
Theorem update_endpoint_changes_only_the_sent_fields db i b task :
  valid_TaskUpdate b = true ->
  tu_title b <> Some None ->
  TaskRepository.get_by_id db i = Some task ->
  exists db' t,
    Tasks.update_task db i b = (db', Reply 200 t)
    /\ title t = match tu_title b with
                 | Some (Some s) => s
                 | _ => title task
                 end
    /\ description t = default (description task) (tu_description b)
    /\ id t = i /\ status t = status task
    /\ created_at t = created_at task /\ completed_at t = completed_at task
    /\ TaskRepository.get_by_id db' i = Some t
    /\ forall j, j <> i ->
         TaskRepository.get_by_id db' j = TaskRepository.get_by_id db j.
Proof.
  intros Hv Hnull Hg. unfold Tasks.update_task. rewrite Hv, Hg.
  destruct (get_by_id_Some _ _ _ Hg) as [_ Hid].
  set (edited := match tu_description b with
                 | Some d => set_description d
                               match tu_title b with
                               | Some (Some s) => set_title s task
                               | _ => task
                               end
                 | None => match tu_title b with
                           | Some (Some s) => set_title s task
                           | _ => task
                           end
                 end).
  assert (He : id edited = i).
  { subst edited. destruct (tu_description b), (tu_title b) as [[|]|]; exact Hid. }
  assert (Hres : Tasks.update_task db i b
                 = (fst (TaskRepository.update db edited), Reply 200 edited)).
  { unfold Tasks.update_task. rewrite Hv, Hg. subst edited.
    destruct (tu_title b) as [[s |] |]; [| contradiction |];
      destruct (tu_description b); reflexivity. }
  unfold Tasks.update_task in Hres. rewrite Hv, Hg in Hres. rewrite Hres.
  exists (fst (TaskRepository.update db edited)), edited.
  split; [reflexivity |].
  split; [subst edited; destruct (tu_description b), (tu_title b) as [[|]|];
          reflexivity |].
  split; [subst edited; destruct (tu_description b), (tu_title b) as [[|]|];
          reflexivity |].
  split; [exact He |].
  split; [subst edited; destruct (tu_description b), (tu_title b) as [[|]|];
          reflexivity |].
  split; [subst edited; destruct (tu_description b), (tu_title b) as [[|]|];
          reflexivity |].
  split; [subst edited; destruct (tu_description b), (tu_title b) as [[|]|];
          reflexivity |].
  split.
  - rewrite get_by_id_after_update, He.
    destruct (decide (i = i)); [| contradiction]. rewrite Hg. reflexivity.
  - intros j Hj. rewrite get_by_id_after_update, He.
    destruct (decide (j = i)); [contradiction | reflexivity].
Qed.

Lemma update_endpoint_changes_only_the_sent_fields_witness :
  exists db' t,
    Tasks.update_task Samples.one_task 1
      {| tu_title := Some (Some "Updated"); tu_description := None |}
    = (db', Reply 200 t)
    /\ title t = "Updated" /\ status t = PENDING /\ created_at t = 10.
Proof.
  destruct (update_endpoint_changes_only_the_sent_fields Samples.one_task 1
              {| tu_title := Some (Some "Updated"); tu_description := None |}
              {| id := 1; title := "x"; description := None; status := PENDING;
                 created_at := 10; completed_at := None |})
    as (db' & t & Hu & Ht & _ & _ & Hs & Hc & _);
    [reflexivity | discriminate | reflexivity |].
  exists db', t. split; [exact Hu |]. split; [exact Ht |].
  split; [exact Hs | exact Hc].
Defined.


End TaskTable.

(** ** The tools that list and count *)

Section Listing.
Import Agent Backend Backend.Chat Backend.Service.

Lemma get_all_elem_db db t : t ∈ TaskRepository.get_all db <-> t ∈ tasks db.
Proof.
  unfold TaskRepository.get_all, order_by. by rewrite merge_sort_Permutation.
Qed.

Lemma get_all_sorted db :
  StronglySorted (by_key created_at) (TaskRepository.get_all db).
Proof.
  unfold TaskRepository.get_all, order_by.
  apply StronglySorted_merge_sort; apply _.
Qed.

Lemma list_filter_sublist {A : Type} (f : A -> bool) (l : list A) :
  List.filter f l `sublist_of` l.
Proof.
  induction l as [| x l IH]; simpl; [constructor |].
  destruct (f x); [by apply sublist_skip | by apply sublist_cons].
Qed.

Lemma list_filter_elem {A : Type} (f : A -> bool) (l : list A) x :
  x ∈ List.filter f l <-> x ∈ l /\ f x = true.
Proof. rewrite !list_elem_of_In. apply filter_In. Qed.

(** X12. The list tool: the tasks it shows are a subsequence of all tasks in
    ascending order of creation time; without a status (or with the empty
    one) it shows every task, with a status exactly the tasks whose status
    equals it, so for a status no task has (such as "active", which the
    parser also extracts) none; the count is the number of tasks shown. *)
Theorem list_tool_filters_by_status db st :
  exists shown,
    MCPTaskTools.list_tasks db st = MCPTaskTools.ListResult shown (length shown)
    /\ shown `sublist_of` TaskRepository.get_all db
    /\ StronglySorted (by_key created_at) (TaskRepository.get_all db)
    /\ TaskRepository.get_all db ≡ₚ tasks db
    /\ forall t,
         t ∈ shown
         <-> t ∈ tasks db
             /\ match st with
                | Some s => s = "" \/ status t = s
                | None => True
                end.
Proof.
  unfold MCPTaskTools.list_tasks.
  eexists. split; [reflexivity |].
  split; [| split; [apply get_all_sorted | split]].
  - destruct st as [s |]; [destruct (decide (s = "")) |]; try reflexivity.
    apply list_filter_sublist.
  - unfold TaskRepository.get_all, order_by. apply merge_sort_Permutation.
  - intros t. destruct st as [s |]; [destruct (decide (s = "")) as [-> | Hs] |].
    + rewrite get_all_elem_db. intuition.
    + rewrite list_filter_elem, get_all_elem_db.
      unfold MCPTaskTools.has_status. rewrite bool_decide_eq_true.
      intuition.
    + rewrite get_all_elem_db. intuition.
Qed.

Lemma served_status db e :
  (forall t, t ∈ tasks db -> status t = PENDING \/ status t = COMPLETED) ->
  forall t, t ∈ tasks (serve db e) -> status t = PENDING \/ status t = COMPLETED.
Proof.
  intros Hdb t Ht.
  destruct (serve_descends db e t Ht)
    as [(t0 & Hin & _ & _ & [[_ Hs] | (_ & Hs & _)]) | (_ & Hs & _)]; auto.
  rewrite Hs. by apply Hdb.
Qed.

Lemma reachable_status trace t :
  t ∈ tasks (Service.run trace) -> status t = PENDING \/ status t = COMPLETED.
Proof.
  unfold Service.run.
  assert (H : forall db,
            (forall t, t ∈ tasks db -> status t = PENDING \/ status t = COMPLETED) ->
            forall t, t ∈ tasks (fold_left serve trace db) ->
              status t = PENDING \/ status t = COMPLETED).
  { induction trace as [| e trace IH]; intros db Hdb; simpl; [exact Hdb |].
    apply IH. by apply served_status. }
  apply H. intros t0 Ht0. by apply elem_of_nil in Ht0.
Qed.

Lemma two_buckets (l : list Task) :
  (forall t, t ∈ l -> status t = PENDING \/ status t = COMPLETED) ->
  (length (List.filter (MCPTaskTools.has_status "pending") l)
   + length (List.filter (MCPTaskTools.has_status "completed") l))%nat
  = length l.
Proof.
  induction l as [| x l IH]; intros H; [reflexivity |].
  assert (IH' := IH (fun t Ht => H t (list_elem_of_further _ _ _ Ht))).
  simpl. destruct (H x (list_elem_of_here _ _)) as [Hx | Hx].
  - assert (MCPTaskTools.has_status "pending" x = true) as ->
      by (apply bool_decide_eq_true_2; exact Hx).
    assert (MCPTaskTools.has_status "completed" x = false) as ->
      by (apply bool_decide_eq_false_2; rewrite Hx; discriminate).
    simpl. lia.
  - assert (MCPTaskTools.has_status "pending" x = false) as ->
      by (apply bool_decide_eq_false_2; rewrite Hx; discriminate).
    assert (MCPTaskTools.has_status "completed" x = true) as ->
      by (apply bool_decide_eq_true_2; exact Hx).
    simpl. lia.
Qed.

(** X13. The summary tool: the total is the number of tasks, the pending and
    completed counts are the numbers of tasks with those statuses, and each
    list of examples holds the first five (or all, when fewer) of its bucket
    in order of creation time; in every database reached by a run of
    requests the two counts add up to the total. *)
Theorem summary_counts_and_examples db :
  exists pending completed,
    pending = List.filter (MCPTaskTools.has_status "pending")
                (TaskRepository.get_all db)
    /\ completed = List.filter (MCPTaskTools.has_status "completed")
                     (TaskRepository.get_all db)
    /\ MCPTaskTools.summarize_tasks db
       = MCPTaskTools.SummaryResult (length (tasks db)) (length pending)
           (length completed) (take 5 pending) (take 5 completed)
    /\ length (take 5 pending) = Nat.min 5 (length pending)
    /\ length (take 5 completed) = Nat.min 5 (length completed)
    /\ (forall t, t ∈ pending <-> t ∈ tasks db /\ status t = "pending")
    /\ (forall t, t ∈ completed <-> t ∈ tasks db /\ status t = "completed")
    /\ (forall trace, db = Service.run trace ->
          (length pending + length completed)%nat = length (tasks db)).
Proof.
  eexists _, _. split; [reflexivity |]. split; [reflexivity |].
  assert (Hlen : length (TaskRepository.get_all db) = length (tasks db)).
  { unfold TaskRepository.get_all, order_by.
    apply Permutation_length, merge_sort_Permutation. }
  split; [unfold MCPTaskTools.summarize_tasks; rewrite Hlen; reflexivity |].
  split; [apply length_take |]. split; [apply length_take |].
  split; [| split].
  - intros t. rewrite list_filter_elem, get_all_elem_db.
    unfold MCPTaskTools.has_status. by rewrite bool_decide_eq_true.
  - intros t. rewrite list_filter_elem, get_all_elem_db.
    unfold MCPTaskTools.has_status. by rewrite bool_decide_eq_true.
  - intros trace ->. rewrite <- Hlen. apply two_buckets.
    intros t Ht. apply get_all_elem_db in Ht. by apply (reachable_status trace).
Qed.

(** X14. [get_by_conversation] answers with the oldest messages of the
    conversation, at most [limit] of them, oldest first: every message it
    leaves out is at least as new as every message it returns. *)
Theorem get_by_conversation_returns_the_oldest db cid limit :
  let shown := MessageRepository.get_by_conversation db cid limit in
  let newer :=
    drop limit (order_by msg_created_at
                  (MessageRepository.of_conversation db cid)) in
  length shown
    = Nat.min limit (length (MessageRepository.of_conversation db cid))
  /\ shown ++ newer ≡ₚ MessageRepository.of_conversation db cid
  /\ StronglySorted (by_key msg_created_at) shown
  /\ (forall m n, m ∈ shown -> n ∈ newer ->
        msg_created_at m <= msg_created_at n)
  /\ (forall m, m ∈ shown -> conversation_id m = cid /\ m ∈ messages db).
Proof.
  intros shown newer. subst shown newer.
  unfold MessageRepository.get_by_conversation.
  set (rows := MessageRepository.of_conversation db cid).
  assert (Hs : StronglySorted (by_key msg_created_at)
                 (order_by msg_created_at rows))
    by (apply StronglySorted_merge_sort; apply _).
  assert (Hp : order_by msg_created_at rows ≡ₚ rows)
    by apply merge_sort_Permutation.
  set (l := order_by msg_created_at rows) in *.
  rewrite <- (take_drop limit l) in Hs.
  apply StronglySorted_app in Hs as (Hcut & Hs1 & _).
  split; [| split; [| split; [| split]]].
  - rewrite length_take, (Permutation_length Hp). reflexivity.
  - rewrite take_drop. exact Hp.
  - exact Hs1.
  - exact Hcut.
  - intros m Hm. apply elem_of_take in Hm as (k & Hm & _).
    apply list_elem_of_lookup_2 in Hm. rewrite Hp in Hm. subst rows.
    unfold MessageRepository.of_conversation in Hm.
    apply list_elem_of_filter in Hm. tauto.
Qed.

End Listing.

(** ** The chat endpoint, its agent and its conversations *)

Section ChatFacts.
Import Agent Backend Backend.Chat Backend.Service Samples.


(** The intents never touch the conversations or the messages. *)
Lemma handle_intent_only_tasks now db msg intent data text db' l :
  handle_intent now db msg intent data text = inr (db', l) ->
  conversations db' = conversations db
  /\ conversation_seq db' = conversation_seq db
  /\ messages db' = messages db /\ message_seq db' = message_seq db.
Proof.
  unfold handle_intent. intros H.
  repeat (destruct (decide (intent = _)) as [-> | ?]);
    try (injection H as <- _; auto; fail).
  - destruct (get_int data "task_id") as [i |]; [| discriminate H].
    injection H as H. unfold on_delete, MCPTaskTools.delete_task in H.
    destruct (confirmed msg);
      destruct (TaskRepository.get_by_id db i) eqn:Hg;
      injection H as <- _; auto.
    unfold TaskRepository.delete. rewrite Hg. auto.
  - destruct (get_int data "task_id") as [i |]; [| discriminate H].
    unfold MCPTaskTools.complete_task in H.
    destruct (TaskRepository.get_by_id db i); injection H as <- _; auto.
  - destruct (get_int data "task_id") as [i |]; [| discriminate H].
    unfold MCPTaskTools.update_task in H.
    destruct (TaskRepository.get_by_id db i); injection H as <- _; auto.
Qed.








(** The retry loop: answers 503 up to attempt [k], then 429. *)
Lemma hf_attempts_rate_limited a k : forall attempt rounds,
  (attempt <= k < attempt + rounds)%nat ->
  (forall j, (attempt <= j < k)%nat -> http a j = HttpStatus 503) ->
  http a k = HttpStatus 429 ->
  hf_attempts a attempt rounds
  = inl (RateLimitError "HF API rate limit exceeded. Try again later.").
Proof.
  intros attempt rounds. revert attempt.
  induction rounds as [| rounds IH]; intros attempt Hk H503 H429; [lia |].
  simpl. destruct (decide (attempt = k)) as [-> | Hne].
  - rewrite H429. reflexivity.
  - rewrite (H503 attempt) by lia.
    destruct (decide (503 = 503)); [| contradiction].
    apply IH; [lia | | exact H429]. intros j Hj. apply H503. lia.
Qed.

(** X17. A rate limit of the inference endpoint is surfaced, not retried: in
    API mode, when the attempts before attempt [k] (within the retry
    ceiling) all met status 503 and attempt [k] meets status 429, a valid
    chat request is answered 429 with the fixed rate-limit text; the user's
    message has been stored, no answer is stored, and the task table is
    untouched. *)
Theorem upstream_rate_limit_is_answered_429 a clk db request k :
  mode a = HF_API ->
  valid_ChatRequest request = true ->
  (k < max_retries a)%nat ->
  (forall j, (j < k)%nat -> http a j = HttpStatus 503) ->
  http a k = HttpStatus 429 ->
  snd (chat a clk db request)
  = HTTPException 429 "Rate limit exceeded. Please try again in a few minutes."
  /\ tasks (fst (chat a clk db request)) = tasks db
  /\ exists user_message,
       messages (fst (chat a clk db request)) = messages db ++ [user_message]
       /\ role user_message = "user"
       /\ content user_message = message request.
Proof.
  intros Hm Hv Hk H503 H429.
  assert (Hp : process_message a (message request)
               = inl (RateLimitError
                        "HF API rate limit exceeded. Try again later.")).
  { unfold process_message.
    destruct (_parse_intent_rule_based (message request)) as [intent data].
    rewrite Hm. unfold _generate_response_hf_api.
    rewrite (hf_attempts_rate_limited a k 0 (max_retries a));
      [reflexivity | lia | intros j Hj; apply H503; lia | exact H429]. }
  unfold chat. rewrite Hv. unfold try_body.
  pose proof (get_or_create_tasks db (req_session_id request)
                (t_conversation clk)) as Ht1.
  assert (Hmsg1 : messages (fst (ConversationRepository.get_or_create db
                      (req_session_id request) (t_conversation clk)))
                  = messages db).
  { unfold ConversationRepository.get_or_create.
    destruct (ConversationRepository.get_by_session_id db
                (req_session_id request)); reflexivity. }
  destruct (ConversationRepository.get_or_create db (req_session_id request)
              (t_conversation clk)) as [db1 conversation].
  simpl in Ht1, Hmsg1. rewrite Hp. simpl.
  split; [reflexivity |]. split; [exact Ht1 |].
  eexists. rewrite Hmsg1. repeat split.
Qed.

Lemma upstream_rate_limit_is_answered_429_witness :
  snd (chat {| mode := HF_API; max_retries := 3;
               http := fun j => if decide (j = 0%nat) then HttpStatus 503
                                else HttpStatus 429;
               local_generator := None |}
         turn_clock empty_database hello)
  = HTTPException 429 "Rate limit exceeded. Please try again in a few minutes.".
Proof.
  apply (upstream_rate_limit_is_answered_429 _ turn_clock empty_database hello 1);
    [reflexivity | reflexivity | simpl; lia | | reflexivity].
  intros j Hj. assert (j = 0%nat) as -> by lia. reflexivity.
Defined.

Lemma template_is_not_empty intent data :
  _generate_response_rule_based intent data <> "".
Proof.
  unfold _generate_response_rule_based.
  destruct (is_urdu data); unfold responses_ur, responses_en;
    repeat (destruct (decide (intent = _)) as [-> | ?]); simpl; discriminate.
Qed.

(** The retry loop when no attempt raises past the handlers. *)
Lemma hf_attempts_quiet a : forall rounds attempt,
  (forall j, (attempt <= j < attempt + rounds)%nat ->
     (forall e, http a j <> HttpRaises e) /\ http a j <> HttpStatus 429) ->
  hf_attempts a attempt rounds = inr None
  \/ exists j g, (attempt <= j < attempt + rounds)%nat
                 /\ http a j = HttpOk g
                 /\ hf_attempts a attempt rounds = inr (Some (Text.strip g)).
Proof.
  induction rounds as [| rounds IH]; intros attempt Hq; simpl;
    [left; reflexivity |].
  destruct (Hq attempt) as [Hraise H429]; [lia |].
  assert (Hrest : hf_attempts a (S attempt) rounds = inr None
                  \/ exists j g, (attempt <= j < attempt + S rounds)%nat
                                 /\ http a j = HttpOk g
                                 /\ hf_attempts a (S attempt) rounds
                                    = inr (Some (Text.strip g))).
  { destruct (IH (S attempt)) as [H | (j & g & Hj & Hg & H)].
    - intros j Hj. apply Hq. lia.
    - left. exact H.
    - right. exists j, g. split; [lia |]. split; [exact Hg | exact H]. }
  destruct (http a attempt) as [g | code | | e] eqn:Hh.
  - right. exists attempt, g. split; [lia |]. split; [exact Hh | reflexivity].
  - destruct (decide (code = 503)); [exact Hrest |].
    destruct (decide (code = 429)); [congruence | left; reflexivity].
  - destruct (decide (attempt = (max_retries a - 1)%nat));
      [left; reflexivity | exact Hrest].
  - exfalso. exact (Hraise e eq_refl).
Qed.

(** X18. The generative strategy degrades to the templates: in API mode, as
    long as no attempt within the retry ceiling meets status 429 or raises
    something other than an HTTP status or request error, generating a
    response returns a text and never raises; the text is never empty, and
    it is either the stripped text some attempt generated or the template
    response, the template whenever no attempt generated a text that is
    non-blank. *)
Theorem hf_generation_falls_back_to_the_template a intent data :
  (forall j, (j < max_retries a)%nat ->
     (forall e, http a j <> HttpRaises e) /\ http a j <> HttpStatus 429) ->
  exists text,
    _generate_response_hf_api a intent data = inr text
    /\ text <> ""
    /\ (text = _generate_response_rule_based intent data
        \/ exists j g, (j < max_retries a)%nat /\ http a j = HttpOk g
                       /\ text = Text.strip g)
    /\ ((forall j g, (j < max_retries a)%nat -> http a j = HttpOk g ->
           Text.strip g = "") ->
        text = _generate_response_rule_based intent data).
Proof.
  intros Hq. unfold _generate_response_hf_api.
  destruct (hf_attempts_quiet a (max_retries a) 0%nat)
    as [-> | (j & g & Hj & Hg & ->)].
  { intros j Hj. apply Hq. lia. }
  - eexists. split; [reflexivity |].
    split; [apply template_is_not_empty | auto].
  - eexists. split; [reflexivity |].
    destruct (decide (Text.strip g = "")) as [He | He].
    + split; [apply template_is_not_empty | auto].
    + split; [exact He |]. split.
      * right. exists j, g. split; [lia | auto].
      * intros Hblank. contradiction He. apply (Hblank j g); [lia | exact Hg].
Qed.

Lemma hf_generation_falls_back_to_the_template_witness :
  exists text,
    _generate_response_hf_api
      {| mode := HF_API; max_retries := 3; http := fun _ => HttpStatus 503;
         local_generator := None |} "help" ∅ = inr text
    /\ text = _generate_response_rule_based "help" ∅.
Proof.
  destruct (hf_generation_falls_back_to_the_template
              {| mode := HF_API; max_retries := 3;
                 http := fun _ => HttpStatus 503; local_generator := None |}
              "help" ∅) as (text & Ht & _ & _ & Hall).
  { intros j _. split; [intros e |]; discriminate. }
  exists text. split; [exact Ht |]. apply Hall. intros j g _ Hg.
  discriminate Hg.
Defined.

(** X19. For a message the parser classifies as unknown the template
    generator does answer in the language of the message: the Roman-Urdu
    text when the lower-cased message contains one of the keywords hai,
    karna, kal, aaj, mera, mere, kaam (inside any word), the English text
    otherwise. *)
Theorem unknown_intent_is_answered_in_the_message_language msg :
  fst (_parse_intent_rule_based msg) = "unknown" ->
  _generate_response_rule_based "unknown" (snd (_parse_intent_rule_based msg))
  = if Text.any_in urdu_words (Text.lower msg)
    then "🤔 Samajh nahi aaya. Try karein: 'Add task buy milk' ya 'Show my tasks'"
    else "🤔 I didn't understand. Try: 'Add task buy milk' or 'Show my tasks'".
Proof.
  intros Hi.
  assert (Hd : snd (_parse_intent_rule_based msg)
               = {[ "original_message" := VStr msg ]}).
  { revert Hi. unfold _parse_intent_rule_based.
    repeat case_match; simpl; intros Hi; try discriminate Hi. reflexivity. }
  rewrite Hd. unfold _generate_response_rule_based, is_urdu, get_str.
  rewrite lookup_singleton_eq.
  destruct (Text.any_in urdu_words (Text.lower msg)); reflexivity.
Qed.

Lemma unknown_intent_is_answered_in_the_message_language_witness :
  fst (_parse_intent_rule_based "Mera xyz") = "unknown"
  /\ _generate_response_rule_based "unknown"
       (snd (_parse_intent_rule_based "Mera xyz"))
     = "🤔 Samajh nahi aaya. Try karein: 'Add task buy milk' ya 'Show my tasks'".
Proof.
  assert (Hi : fst (_parse_intent_rule_based "Mera xyz") = "unknown")
    by (vm_compute; reflexivity).
  split; [exact Hi |].
  rewrite (unknown_intent_is_answered_in_the_message_language _ Hi).
  vm_compute. reflexivity.
Defined.

Lemma get_or_create_finds db sid now :
  let '(db1, c) := ConversationRepository.get_or_create db sid now in
  ConversationRepository.get_by_session_id db1 sid = Some c
  /\ match ConversationRepository.get_by_session_id db sid with
     | Some c0 => c = c0 /\ conversations db1 = conversations db
     | None =>
         conv_id c = conversation_seq db
         /\ conversations db1 = conversations db ++ [c]
     end.
Proof.
  unfold ConversationRepository.get_or_create.
  destruct (ConversationRepository.get_by_session_id db sid) as [c0 |] eqn:Hf.
  - auto.
  - simpl. split; [| auto].
    unfold ConversationRepository.get_by_session_id in *. simpl.
    induction (conversations db) as [| r rows IH]; simpl.
    + rewrite (bool_decide_eq_true_2 _ eq_refl). reflexivity.
    + simpl in Hf. destruct (bool_decide (session_id r = sid));
        [discriminate Hf | by apply IH].
Qed.

Lemma touched_is_found rows c c' sid :
  find (fun r => bool_decide (session_id r = sid)) rows = Some c ->
  session_id c' = sid ->
  find (fun r => bool_decide (session_id r = sid))
       (map (fun r => if bool_decide (conv_id r = conv_id c) then c' else r) rows)
  = Some c'.
Proof.
  intros Hf Hs. induction rows as [| r rows IH]; [discriminate Hf |].
  simpl in Hf |- *.
  destruct (bool_decide_reflect (session_id r = sid)) as [Hr | Hr].
  - injection Hf as ->. rewrite (bool_decide_eq_true_2 _ eq_refl).
    rewrite (bool_decide_eq_true_2 _ Hs). reflexivity.
  - destruct (bool_decide (conv_id r = conv_id c)).
    + rewrite (bool_decide_eq_true_2 _ Hs). reflexivity.
    + rewrite (bool_decide_eq_false_2 _ Hr). by apply IH.
Qed.

(** X20. Get-or-create over turns: after a valid chat request the session id
    finds a conversation, the one whose id the 200 answer names and whose
    [updated_at] is then the turn's last reading of the clock; when the
    session id found a conversation before the turn it is that same
    conversation (same id and creation time) and no row is added, otherwise
    exactly one row is added, numbered by the sequence. *)
Theorem chat_keeps_one_conversation_per_session a clk db request :
  valid_ChatRequest request = true ->
  exists c,
    ConversationRepository.get_by_session_id (fst (chat a clk db request))
      (req_session_id request) = Some c
    /\ session_id c = req_session_id request
    /\ (forall resp, snd (chat a clk db request) = Reply 200 resp ->
          resp_conversation_id resp = conv_id c
          /\ updated_at c = t_touch clk)
    /\ match ConversationRepository.get_by_session_id db
               (req_session_id request) with
       | Some c0 =>
           conv_id c = conv_id c0
           /\ conv_created_at c = conv_created_at c0
           /\ length (conversations (fst (chat a clk db request)))
              = length (conversations db)
       | None =>
           conv_id c = conversation_seq db
           /\ length (conversations (fst (chat a clk db request)))
              = S (length (conversations db))
       end.
Proof.
  intros Hv. unfold chat. rewrite Hv. unfold try_body.
  pose proof (get_or_create_finds db (req_session_id request)
                (t_conversation clk)) as Hgoc.
  destruct (ConversationRepository.get_or_create db (req_session_id request)
              (t_conversation clk)) as [db1 conversation].
  destruct Hgoc as [Hfind Hprev].
  assert (Hsid : session_id conversation = req_session_id request).
  { unfold ConversationRepository.get_by_session_id in Hfind.
    apply find_some in Hfind as [_ H]. by apply bool_decide_eq_true in H. }
  assert (Hcount : match ConversationRepository.get_by_session_id db
                           (req_session_id request) with
                   | Some c0 =>
                       conv_id conversation = conv_id c0
                       /\ conv_created_at conversation = conv_created_at c0
                       /\ length (conversations db1) = length (conversations db)
                   | None =>
                       conv_id conversation = conversation_seq db
                       /\ length (conversations db1)
                          = S (length (conversations db))
                   end).
  { destruct (ConversationRepository.get_by_session_id db
                (req_session_id request)) as [c0 |].
    - destruct Hprev as [-> ->]. auto.
    - destruct Hprev as [Hid ->]. split; [exact Hid |].
      rewrite length_app. simpl. lia. }
  simpl.
  destruct (process_message a (message request)) as [e | r].
  { simpl. exists conversation. split; [exact Hfind |]. split; [exact Hsid |].
    split; [intros resp Hr; destruct e; discriminate Hr | exact Hcount]. }
  destruct (handle_intent (t_tool clk) _ (message request) (r_intent r)
              (r_data r) (r_response r)) as [e | [db3 l]] eqn:Hh.
  { simpl. exists conversation. split; [exact Hfind |]. split; [exact Hsid |].
    split; [intros resp Hr; destruct e; discriminate Hr | exact Hcount]. }
  destruct (handle_intent_only_tasks _ _ _ _ _ _ _ _ Hh) as (Hc3 & _).
  simpl in Hc3. simpl.
  set (touched := {| conv_id := conv_id conversation;
                     session_id := session_id conversation;
                     conv_created_at := conv_created_at conversation;
                     updated_at := t_touch clk |}).
  exists touched. split.
  - unfold ConversationRepository.get_by_session_id. simpl. rewrite Hc3.
    apply (touched_is_found _ conversation touched); [exact Hfind | exact Hsid].
  - split; [exact Hsid |]. split.
    + intros resp Hr. injection Hr as <-. split; reflexivity.
    + rewrite length_map, Hc3. exact Hcount.
Qed.

Lemma chat_keeps_one_conversation_per_session_witness :
  exists c,
    ConversationRepository.get_by_session_id
      (fst (chat rule_based_agent turn_clock one_task delete_task_1)) "s"
    = Some c
    /\ conv_id c = 1.
Proof.
  destruct (chat_keeps_one_conversation_per_session rule_based_agent
              turn_clock one_task delete_task_1 eq_refl)
    as (c & Hf & _ & _ & Hid & _).
  exists c. split; [exact Hf | exact Hid].
Defined.

End ChatFacts.

(** ** Start-up and settings *)

Section StartupFacts.
Import Agent Startup Settings.

(** X21. The mode a fresh agent starts in.  It is the API mode exactly when
    a non-empty token is configured, httpx is importable and the test
    request passes or meets status 503; any other answer to the test request
    (401, 429, another status, a network error, any other exception) is
    swallowed, and the agent
    falls back to the local model when transformers is importable and the
    model loads, and to the rule-based mode otherwise. *)
Theorem initialize_selects_the_mode env :
  let api_ok :=
    has_token env = true /\ HTTPX_AVAILABLE env = true
    /\ (test_request env = TestPassed \/ test_request env = TestStatus 503) in
  let local_ok :=
    TRANSFORMERS_AVAILABLE env = true /\ local_model_error env = None in
  (initialize env = HF_API <-> api_ok)
  /\ (initialize env = LOCAL <-> ~ api_ok /\ local_ok)
  /\ (initialize env = RULE_BASED <-> ~ api_ok /\ ~ local_ok).
Proof.
  intros api_ok local_ok. subst api_ok local_ok.
  unfold initialize, _init_hf_api, _test_hf_api, _init_local_model.
  destruct (has_token env), (HTTPX_AVAILABLE env), (TRANSFORMERS_AVAILABLE env),
    (local_model_error env), (test_request env) as [| code | msg | msg];
    simpl;
    try (destruct (decide (code = 503)) as [-> | H503];
         [| destruct (decide (code = 401)); [| destruct (decide (code = 429))]]);
    simpl; repeat split; try discriminate; try tauto; try congruence;
    intuition (try discriminate; try congruence).
Qed.

Lemma split_length sep s : length (split sep s) = S (count_char sep s).
Proof.
  induction s as [| c s IH]; [reflexivity |]. simpl.
  destruct (Ascii.eqb c sep); simpl; [by rewrite IH |].
  destruct (split sep s); simpl in *; [discriminate IH | exact IH].
Qed.

Lemma split_pieces sep s piece :
  piece ∈ split sep s -> count_char sep piece = 0%nat.
Proof.
  revert piece. induction s as [| c s IH]; intros piece H; simpl in H.
  - apply list_elem_of_singleton in H as ->. reflexivity.
  - destruct (Ascii.eqb c sep) eqn:Hc.
    + apply elem_of_cons in H as [-> | H]; [reflexivity | by apply IH].
    + destruct (split sep s) as [| p rest].
      * apply list_elem_of_singleton in H as ->. simpl. by rewrite Hc.
      * apply elem_of_cons in H as [-> | H].
        -- simpl. rewrite Hc. apply IH. by left.
        -- apply IH. by right.
Qed.

Lemma join_split sep s : join sep (split sep s) = s.
Proof.
  induction s as [| c s IH]; [reflexivity |]. simpl.
  destruct (Ascii.eqb_spec c sep) as [-> | Hc].
  - pose proof (split_length sep s) as Hl.
    destruct (split sep s) as [| p rest]; [discriminate Hl |].
    change (join sep ("" :: p :: rest)) with (String sep (join sep (p :: rest))).
    by rewrite IH.
  - pose proof (split_length sep s) as Hl.
    destruct (split sep s) as [| p rest]; [discriminate Hl |].
    destruct rest as [| q rest]; simpl in IH |- *; by rewrite <- IH.
Qed.

Lemma lstrip_count c s :
  (count_char c (Text.lstrip s) <= count_char c s)%nat.
Proof.
  induction s as [| d s IH]; simpl; [lia |].
  destruct (Text.is_space d); simpl; lia.
Qed.

Lemma rstrip_count c s :
  (count_char c (Text.rstrip s) <= count_char c s)%nat.
Proof.
  induction s as [| d s IH]; [simpl; lia |].
  rewrite rstrip_cons.
  destruct (Text.is_space d && bool_decide (Text.rstrip s = ""))%bool;
    simpl; lia.
Qed.

(** X22. [get_cors_origins]: the setting is cut at its commas, so there is
    one origin more than there are commas (a single empty origin for the
    empty setting), no origin contains a comma and every origin is trimmed;
    joining the pieces of the cut with commas gives the setting back. *)
Theorem cors_origins_are_the_trimmed_pieces cors_origins :
  length (get_cors_origins cors_origins) = S (count_char comma cors_origins)
  /\ (forall origin, origin ∈ get_cors_origins cors_origins ->
        Text.trimmed origin = true /\ count_char comma origin = 0%nat)
  /\ join comma (split comma cors_origins) = cors_origins.
Proof.
  unfold get_cors_origins. split; [| split].
  - rewrite length_map. apply split_length.
  - intros origin H.
    apply (proj1 (list_elem_of_fmap Text.strip _ _)) in H as (piece & -> & Hp).
    split; [apply strip_trimmed |].
    pose proof (split_pieces _ _ _ Hp) as H0.
    pose proof (rstrip_count comma (Text.lstrip piece)) as H1.
    pose proof (lstrip_count comma piece) as H2.
    unfold Text.strip. lia.
  - apply join_split.
Qed.

End StartupFacts.



(** ** What the create patterns catch *)

Section Shadowing.
Import Re Agent Rounds.

Lemma go_plus_unfold {R : Type} r1 s g (k : string -> groups -> option R) :
  go (Plus r1) s g k = plus_rounds r1 k (S (String.length s)) s g.
Proof. reflexivity. Qed.

Lemma app_cons c s r : String c s +:+ r = String c (s +:+ r).
Proof. reflexivity. Qed.

Lemma app_nil r : "" +:+ r = r.
Proof. reflexivity. Qed.

Lemma length_app_string s r :
  String.length (s +:+ r) = (String.length s + String.length r)%nat.
Proof. induction s as [| c s IH]; [reflexivity |]. rewrite app_cons. simpl. by rewrite IH. Qed.

Lemma substring_all s : String.substring 0 (String.length s) s = s.
Proof. induction s as [| c s IH]; [reflexivity |]. simpl. by rewrite IH. Qed.

Lemma prefix_app p r : String.prefix p (p +:+ r) = true.
Proof.
  induction p as [| c p IH]; [by destruct r |].
  rewrite app_cons. simpl. destruct (ascii_dec c c); [exact IH | contradiction].
Qed.

Lemma substring_app p r :
  String.substring (String.length p)
    (String.length (p +:+ r) - String.length p) (p +:+ r) = r.
Proof.
  induction p as [| c p IH].
  - rewrite app_nil. simpl. rewrite Nat.sub_0_r. apply substring_all.
  - rewrite app_cons. simpl. exact IH.
Qed.

Lemma drop_prefix_app p r : drop_prefix p (p +:+ r) = Some r.
Proof.
  unfold drop_prefix. rewrite prefix_app. f_equal. apply substring_app.
Qed.

Section Continuations.
Context {R : Type}.
Implicit Types k : string -> groups -> option R.

Lemma go_lit_app p r g k :
  is_Some (k r g) -> is_Some (go (Lit p) (p +:+ r) g k).
Proof. intros H. simpl. by rewrite drop_prefix_app. Qed.

Lemma go_alt_left r1 r2 s g k :
  is_Some (go r1 s g k) -> is_Some (go (Alt r1 r2) s g k).
Proof. intros [x Hx]. simpl. rewrite Hx. eauto. Qed.

Lemma go_alt_right r1 r2 s g k :
  is_Some (go r2 s g k) -> is_Some (go (Alt r1 r2) s g k).
Proof. intros H. simpl. destruct (go r1 s g k); eauto. Qed.

Lemma go_opt_skip r1 s g k :
  is_Some (k s g) -> is_Some (go (Opt r1) s g k).
Proof. intros H. simpl. destruct (go r1 s g k); eauto. Qed.

Lemma go_alts_app ws w r g k :
  w ∈ ws -> is_Some (k r g) -> is_Some (go (alts ws) (w +:+ r) g k).
Proof.
  intros Hw Hk. induction ws as [| w0 ws IH]; [by apply elem_of_nil in Hw |].
  apply elem_of_cons in Hw as [-> | Hw].
  - destruct ws; [by apply go_lit_app |].
    apply go_alt_left. by apply go_lit_app.
  - destruct ws as [| w1 ws]; [by apply elem_of_nil in Hw |].
    apply go_alt_right. by apply IH.
Qed.

(** [c+] over a class: it is enough that the continuation accepts after some
    non-empty run of characters of the class. *)
Lemma go_plus_class p pre : forall r g k,
  pre <> "" -> all_chars p pre = true ->
  (forall g', is_Some (k r g')) ->
  is_Some (go (Plus (Cls p)) (pre +:+ r) g k).
Proof.
  intros r g k Hne Hall Hk. rewrite go_plus_unfold.
  assert (H : forall fuel,
            (String.length (pre +:+ r) < fuel)%nat ->
            is_Some (plus_rounds (Cls p) k fuel (pre +:+ r) g)).
  2: { apply H. lia. }
  revert Hne Hall.
  induction pre as [| c pre IH]; intros Hne Hall fuel Hfuel; [contradiction |].
  destruct fuel as [| fuel]; [lia |].
  rewrite app_cons in Hfuel |- *. simpl in Hall, Hfuel.
  apply andb_prop in Hall as [Hc Hall].
  simpl. rewrite Hc.
  destruct (Nat.ltb_spec (String.length (pre +:+ r))
              (S (String.length (pre +:+ r)))) as [_ | Hbad]; [| lia].
  destruct pre as [| d pre].
  - rewrite app_nil.
    destruct (plus_rounds (Cls p) k fuel r g); [eauto | apply Hk].
  - destruct (IH ltac:(discriminate) Hall fuel ltac:(lia)) as [x Hx].
    rewrite Hx. eauto.
Qed.

End Continuations.

Lemma search_at_suffix r s1 s2 :
  is_Some (match_here r s2) -> is_Some (search r (s1 +:+ s2)).
Proof.
  intros H. induction s1 as [| c s1 IH].
  - rewrite app_nil. destruct s2; simpl; destruct H as [x ->]; eauto.
  - rewrite app_cons. simpl.
    destruct (match_here r (String c (s1 +:+ s2))); [eauto | exact IH].
Qed.

Lemma first_match_in p ps s :
  p ∈ ps -> is_Some (search p s) -> is_Some (first_match ps s).
Proof.
  intros Hp Hs. induction ps as [| q ps IH]; [by apply elem_of_nil in Hp |].
  simpl. apply elem_of_cons in Hp as [<- | Hp].
  - destruct Hs as [x ->]. eauto.
  - destruct (search q s); [eauto | by apply IH].
Qed.

Lemma create_match_is_create_task msg :
  is_Some (first_match (create_patterns_en ++ create_patterns_ur)
             (Text.strip (Text.lower msg))) ->
  fst (_parse_intent_rule_based msg) = "create_task".
Proof.
  intros [g Hg]. unfold _parse_intent_rule_based. rewrite Hg. reflexivity.
Qed.

Lemma go_seq {R : Type} r1 r2 s g (k : string -> groups -> option R) :
  go (Seq r1 r2) s g k = go r1 s g (fun rest g' => go r2 rest g' k).
Proof. reflexivity. Qed.

Lemma go_grp {R : Type} n r1 s g (k : string -> groups -> option R) :
  go (Grp n r1) s g k
  = go r1 s g (fun rest g' => k rest (<[n := Text.consumed s rest]> g')).
Proof. reflexivity. Qed.

Lemma go_ws_one {R : Type} sp r g (k : string -> groups -> option R) :
  Text.is_space sp = true ->
  (forall g', is_Some (k r g')) ->
  is_Some (go ws (String sp r) g k).
Proof.
  intros Hsp Hk.
  apply (go_plus_class Text.is_space (String sp "") r g k);
    [discriminate | by simpl; rewrite Hsp | exact Hk].
Qed.

Lemma go_dots_one {R : Type} c r g (k : string -> groups -> option R) :
  Text.code c <> 10%N ->
  (forall g', is_Some (k r g')) ->
  is_Some (go (Plus dot) (String c r) g k).
Proof.
  intros Hc Hk.
  apply (go_plus_class _ (String c "") r g k); [discriminate | | exact Hk].
  simpl. apply N.eqb_neq in Hc. by rewrite Hc.
Qed.

(** X23. A message whose lowered, trimmed text has one of the words add,
    create or new anywhere, followed by a whitespace character and then by
    any character but a line feed, is a create_task: the first create
    pattern is unanchored and is tried before every other intent. *)
Theorem create_verb_anywhere_is_create_task
    (msg before v : string) (sp c : ascii) (rest : string) :
  Text.strip (Text.lower msg) = before +:+ v +:+ String sp (String c rest) ->
  v ∈ ["add"; "create"; "new"] ->
  Text.is_space sp = true ->
  Text.code c <> 10%N ->
  fst (_parse_intent_rule_based msg) = "create_task".
Proof.
  intros Hmsg Hv Hsp Hc. apply create_match_is_create_task. rewrite Hmsg.
  apply (first_match_in
           (seqs [alts ["add"; "create"; "new"]; ws; opt_word "task";
                  opt_word "to"; Grp 1 (Plus dot)])).
  { apply elem_of_app. left. apply list_elem_of_here. }
  apply search_at_suffix. unfold match_here. cbn [seqs].
  rewrite go_seq. apply go_alts_app; [exact Hv |].
  rewrite go_seq. apply go_ws_one; [exact Hsp |]. intros g1.
  rewrite go_seq. apply go_opt_skip.
  rewrite go_seq. apply go_opt_skip.
  rewrite go_grp. apply go_dots_one; [exact Hc |]. intros g2. eauto.
Qed.

Lemma create_verb_anywhere_is_create_task_witness :
  fst (_parse_intent_rule_based "Remove the new task 3") = "create_task".
Proof.
  apply (create_verb_anywhere_is_create_task
           "Remove the new task 3" "remove the " "new" " " "t" "ask 3").
  - reflexivity.
  - apply list_elem_of_further, list_elem_of_further, list_elem_of_here.
  - reflexivity.
  - discriminate.
Defined.

(** X24. A message whose lowered, trimmed text has, anywhere, a character
    other than a line feed, then a whitespace character, then one of lena,
    karna or hai, is a create_task, whatever else it says: the Roman-Urdu
    catch-all is tried before the list, complete, delete and update
    patterns. *)
Theorem roman_urdu_ending_is_create_task
    (msg before : string) (c sp : ascii) (w rest : string) :
  Text.strip (Text.lower msg) = before +:+ String c (String sp (w +:+ rest)) ->
  Text.code c <> 10%N ->
  Text.is_space sp = true ->
  w ∈ ["lena"; "karna"; "hai"] ->
  fst (_parse_intent_rule_based msg) = "create_task".
Proof.
  intros Hmsg Hc Hsp Hw. apply create_match_is_create_task. rewrite Hmsg.
  apply (first_match_in
           (seqs [Grp 1 (Plus dot); ws; alts ["lena"; "karna"; "hai"]])).
  { apply elem_of_app. right.
    apply list_elem_of_further, list_elem_of_here. }
  apply search_at_suffix. unfold match_here. cbn [seqs].
  rewrite go_seq, go_grp. apply go_dots_one; [exact Hc |]. intros g1.
  rewrite go_seq. apply go_ws_one; [exact Hsp |]. intros g2.
  apply go_alts_app; [exact Hw |]. eauto.
Qed.

Lemma roman_urdu_ending_is_create_task_witness :
  fst (_parse_intent_rule_based "Delete task 3 hai") = "create_task".
Proof.
  apply (roman_urdu_ending_is_create_task
           "Delete task 3 hai" "delete task " "3" " " "hai" "").
  - reflexivity.
  - discriminate.
  - reflexivity.
  - apply list_elem_of_further, list_elem_of_further, list_elem_of_here.
Defined.

End Shadowing.

(** ** A chat turn as the history endpoint shows it *)

Section Transcript.
Import Agent Backend Backend.Chat Samples.





End Transcript.

(** ** A create turn of the chat *)

Section CreateTurn.
Import Re Agent Backend Backend.Chat Samples.




End CreateTurn.
